(** * terraform-provider-githubrepos: provider configuration and repository
      reconciliation

    A shallow embedding of [internal/provider/provider.go] and
    [internal/provider/all_resource.go].

    Conventions of the embedding:
    - Go [int] and [int64] values are [Z]; no arithmetic is done on them.
    - a Go [map[string]T] is a [gmap string T]; a nil map reads like the
      empty one and is never written to here.
    - a Go pointer that may be nil is an [option].
    - a Go [error] is the string of its message.
    - the [for {}] loop of [readRepositories] has no bound of its own; it is
      a [Fixpoint] on a fuel argument, [None] meaning that the fuel ran out.
    - a nil dereference is the outcome [Panicked]. *)

From stdpp Require Import gmap strings list fin_maps pretty.
From Stdlib Require Import ZArith Lia.

Open Scope Z_scope.

(** ** The plugin framework's value types *)

Module types.

(** [types.String]: null, unknown, or a known string. *)
Inductive String := StringNull | StringUnknown | StringValue (s : string).

(** [types.Int64]: null, unknown, or a known 64-bit integer. *)
Inductive Int64 := Int64Null | Int64Unknown | Int64Value (n : Z).

Definition IsNull (v : String) : bool :=
  match v with StringNull => true | _ => false end.

Definition IsUnknown (v : String) : bool :=
  match v with StringUnknown => true | _ => false end.

(** [ValueString] is the empty string for a null or unknown value. *)
Definition ValueString (v : String) : string :=
  match v with StringValue s => s | _ => "" end.

#[global] Instance Int64_eq_dec : EqDecision Int64.
Proof. solve_decision. Defined.

#[global] Instance String_eq_dec : EqDecision String.
Proof. solve_decision. Defined.

End types.

(** ** Diagnostics *)

Module diag.

Inductive Severity := SeverityError | SeverityWarning.

(** A diagnostic; [Attribute] is [Some (path.Root name)] for the ones made
    by [AddAttributeError] and [None] for those of [AddError]. *)
Record Diagnostic := {
  Severity_ : Severity;
  Attribute : option string;
  Summary : string;
  Detail : string
}.

Definition Diagnostics := list Diagnostic.

Definition isError (d : Diagnostic) : bool :=
  match Severity_ d with SeverityError => true | SeverityWarning => false end.

Definition HasError (ds : Diagnostics) : bool := existsb isError ds.

#[global] Instance Severity_eq_dec : EqDecision Severity.
Proof. solve_decision. Defined.

#[global] Instance Diagnostic_eq_dec : EqDecision Diagnostic.
Proof. solve_decision. Defined.

Definition Contains (ds : Diagnostics) (d : Diagnostic) : bool :=
  bool_decide (d ∈ ds).

(** [Append] adds each diagnostic that the collection does not hold yet. *)
Definition Append (ds new : Diagnostics) : Diagnostics :=
  fold_left (fun acc d => if Contains acc d then acc else acc ++ [d]) new ds.

Definition AddError (summary detail : string) (ds : Diagnostics) : Diagnostics :=
  Append ds [ {| Severity_ := SeverityError; Attribute := None;
                 Summary := summary; Detail := detail |} ].

Definition AddAttributeError (root summary detail : string) (ds : Diagnostics)
  : Diagnostics :=
  Append ds [ {| Severity_ := SeverityError; Attribute := Some root;
                 Summary := summary; Detail := detail |} ].

End diag.

(** ** The GitHub client, as far as the provider uses it *)

Module github.

(** [github.Repository]: the two fields read here, both pointers. A nil
    element of a page panics where a nil [Name] does, at [*repo.Name], so
    it is a record with no name here. *)
Record Repository := {
  ID : option Z;
  Name : option string
}.

Record ListOptions := {
  Page : Z;
  PerPage : Z
}.

Record RepositoryListByOrgOptions := {
  Type_ : string;
  Sort : string;
  Direction : string;
  ListOptions_ : ListOptions
}.

(** [github.Response]: the pagination field read here. *)
Record Response := {
  NextPage : Z
}.

(** The result triple [(repos, resp, err)] of a list call: either the
    page and its response, or the error. *)
Definition ListResult : Type := (list Repository * Response) + string.

(** [*github.Client]: the one service method the resource calls,
    [Repositories.ListByOrg(ctx, org, opt)]. *)
Record Client := {
  ListByOrg : string -> RepositoryListByOrgOptions -> ListResult
}.

#[global] Instance ListOptions_eq_dec : EqDecision ListOptions.
Proof. solve_decision. Defined.

#[global] Instance RepositoryListByOrgOptions_eq_dec
  : EqDecision RepositoryListByOrgOptions.
Proof. solve_decision. Defined.

(** [opt.Page = p] on the options the loop holds a pointer to. *)
Definition setPage (opt : RepositoryListByOrgOptions) (p : Z)
  : RepositoryListByOrgOptions :=
  {| Type_ := Type_ opt; Sort := Sort opt; Direction := Direction opt;
     ListOptions_ := {| Page := p; PerPage := PerPage (ListOptions_ opt) |} |}.

End github.

(** ** Effects: log calls and remote calls, in the order the code makes them *)

Inductive field := IntField (n : Z) | BoolField (b : bool).

Inductive event :=
| SetField (key value : string)
| MaskFieldValuesWithFieldKeys (key : string)
| Debug (msg : string) (fields : list (string * field))
| Info (msg : string) (fields : list (string * field))
| ListByOrgCall (org : string) (opt : github.RepositoryListByOrgOptions).

(** How a Go function call ends: it returns its [error] result ([None] is
    nil), or it panics. *)
Inductive outcome :=
| Returned (err : option string)
| Panicked.

(** Modelled from the spec: the declaration of the type [Config], which
    [allResource.Configure] asserts its provider data to and reads the
    fields [Client] and [Owner] of; the spec's [ResolvedConfig] pairs the
    client capability with the account identifier. *)
Record Config := {
  Client : option github.Client;
  Owner : string
}.

(** A Go [any] as the framework hands it on: the nil interface, a
    [*github.Client], a [*Config] (possibly a nil pointer of that type), or a
    value of some other dynamic type, given by its [%T] name. *)
Inductive any :=
| AnyNil
| AnyGithubClient (c : github.Client)
| AnyConfig (cfg : option Config)
| AnyOther (typeName : string).

(** What [%T] prints. *)
Definition typeName (v : any) : string :=
  match v with
  | AnyNil => "<nil>"
  | AnyGithubClient _ => "*github.Client"
  | AnyConfig _ => "*provider.Config"
  | AnyOther t => t
  end.

(** ** all_resource.go *)

Module all_resource.

(** [allResourceRepoModel] *)
Record allResourceRepoModel := {
  ID : types.Int64
}.

#[global] Instance allResourceRepoModel_eq_dec : EqDecision allResourceRepoModel.
Proof. solve_decision. Defined.

(** [allResource] *)
Record allResource := {
  owner : string;
  client : option github.Client
}.

(** The options literal at the head of [readRepositories]; the fields not
    named in it have Go's zero values. *)
Definition initialOptions : github.RepositoryListByOrgOptions :=
  {| github.Type_ := ""; github.Sort := "full_name"; github.Direction := "";
     github.ListOptions_ := {| github.Page := 0; github.PerPage := 100 |} |}.

(** The paging loop: one [ListByOrg] call per iteration, the error returned
    at once, the page appended to [allRepos], the loop left when [NextPage]
    is 0 and otherwise continued at [opt.Page = gresp.NextPage]. The result
    carries the calls made, oldest first. *)
Fixpoint listAll (fuel : nat) (c : github.Client) (org : string)
    (opt : github.RepositoryListByOrgOptions) (allRepos : list github.Repository)
    : option ((string + list github.Repository) * list event) :=
  match fuel with
  | O => None
  | S fuel' =>
      match github.ListByOrg c org opt with
      | inr err => Some (inl err, [ListByOrgCall org opt])
      | inl (repos, gresp) =>
          let allRepos := allRepos ++ repos in
          if github.NextPage gresp =? 0
          then Some (inr allRepos, [ListByOrgCall org opt])
          else
            match listAll fuel' c org (github.setPage opt (github.NextPage gresp))
                          allRepos with
            | None => None
            | Some (res, evs) => Some (res, ListByOrgCall org opt :: evs)
            end
      end
  end.

(** One iteration of the loop over [allRepos]: [None] is a nil dereference
    ([*repo.Name], or [*repo.ID] once the name is a key). *)
Definition setRepo (stateRepos : gmap string allResourceRepoModel)
    (repo : github.Repository) : option (gmap string allResourceRepoModel) :=
  match github.Name repo with
  | None => None
  | Some name =>
      match stateRepos !! name with
      | None => Some stateRepos
      | Some _ =>
          match github.ID repo with
          | None => None
          | Some id => Some (<[name := {| ID := types.Int64Value id |}]> stateRepos)
          end
      end
  end.

(** The loop over [allRepos]; the map is returned as it stands when the
    loop ends or panics. *)
Fixpoint setRepos (stateRepos : gmap string allResourceRepoModel)
    (allRepos : list github.Repository)
    : gmap string allResourceRepoModel * bool :=
  match allRepos with
  | [] => (stateRepos, true)
  | repo :: rest =>
      match setRepo stateRepos repo with
      | None => (stateRepos, false)
      | Some stateRepos' => setRepos stateRepos' rest
      end
  end.

(** [readRepositories]: the map after the call, how the call ended, and
    what it logged and requested. No fuel left is [None]. *)
Definition readRepositories (fuel : nat) (r : allResource)
    (stateRepos : gmap string allResourceRepoModel)
    : option (gmap string allResourceRepoModel * outcome * list event) :=
  let log0 := [Debug "Reading GitHub repositories" []] in
  match client r with
  | None => Some (stateRepos, Panicked, log0)
  | Some c =>
      match listAll fuel c (owner r) initialOptions [] with
      | None => None
      | Some (inl err, calls) => Some (stateRepos, Returned (Some err), log0 ++ calls)
      | Some (inr allRepos, calls) =>
          let log1 := log0 ++ calls
                      ++ [Debug "GitHub repos are read"
                                [("count", IntField (Z.of_nat (length allRepos)))];
                          Debug "Setting repos to state" []] in
          match setRepos stateRepos allRepos with
          | (stateRepos', false) => Some (stateRepos', Panicked, log1)
          | (stateRepos', true) =>
              Some (stateRepos', Returned None,
                    log1 ++ [Debug "Finished reading GitHub repositories" []])
          end
      end
  end.

(** [resource.ConfigureRequest] *)
Record ConfigureRequest := {
  ProviderData : any
}.

(** [resource.ConfigureResponse] *)
Record ConfigureResponse := {
  Diagnostics : diag.Diagnostics
}.

(** [allResource.Configure]: the receiver and the response after the call,
    and how the call ended ([config.Client] on a nil [*Config] panics). *)
Definition Configure (r : allResource) (req : ConfigureRequest)
    (resp : ConfigureResponse) : allResource * ConfigureResponse * outcome :=
  match ProviderData req with
  | AnyNil => (r, resp, Returned None)
  | AnyConfig (Some config) =>
      ({| owner := Owner config; client := Client config |}, resp, Returned None)
  | AnyConfig None => (r, resp, Panicked)
  | other =>
      (r,
       {| Diagnostics :=
            diag.AddError "Unexpected Data Source Configure Type"
              ("Expected Config, got: " +:+ typeName other
               +:+ ". Please report this issue to the provider developers.")
              (Diagnostics resp) |},
       Returned None)
  end.

End all_resource.

(** ** provider.go *)

Module provider.

(** [githubreposProviderModel] *)
Record githubreposProviderModel := {
  Token : types.String;
  Owner : types.String
}.

(** [provider.ConfigureRequest]: what [req.Config.Get(ctx, &config)] gives,
    the decoded model and the diagnostics of decoding it. *)
Record ConfigureRequest := {
  ConfigGet : githubreposProviderModel * diag.Diagnostics
}.

(** [provider.ConfigureResponse] *)
Record ConfigureResponse := {
  Diagnostics : diag.Diagnostics;
  DataSourceData : any;
  ResourceData : any
}.

(** [os.Getenv]: the empty string for a variable that is not set. *)
Definition Getenv (env : gmap string string) (key : string) : string :=
  default "" (env !! key).

Definition unknownTokenDetail : string :=
  "The provider cannot create the GitHub API client as there is an unknown configuration value for the GitHub token. "
  +:+ "Either target apply the source of the value first, set the value statically in the configuration, or use the GITHUB_TOKEN environment variable.".

Definition unknownOwnerDetail : string :=
  "The provider cannot create the GitHub API client as there is an unknown configuration value for the GitHub organization name. "
  +:+ "Either target apply the source of the value first, set the value statically in the configuration, or use the GITHUB_OWNER environment variable.".

Definition missingTokenDetail : string :=
  "The provider cannot create the GitHub API client as there is a missing or empty value for the GitHub token. "
  +:+ "Set the token value in the configuration or use the GITHUB_TOKEN environment variable. "
  +:+ "If either is already set, ensure the value is not empty.".

Definition missingOwnerDetail : string :=
  "The provider cannot create the GitHub API client as there is a missing or empty value for the GitHub organization name. "
  +:+ "Set the owner value in the configuration or use the GITHUB_OWNER environment variable. "
  +:+ "If either is already set, ensure the value is not empty.".

(** The two unknown-value checks of [Configure]. *)
Definition checkUnknown (config : githubreposProviderModel)
    (ds : diag.Diagnostics) : diag.Diagnostics :=
  let ds :=
    if types.IsUnknown (Token config)
    then diag.AddAttributeError "token" "Unknown GitHub API Token"
           unknownTokenDetail ds
    else ds in
  if types.IsUnknown (Owner config)
  then diag.AddAttributeError "owner" "Unknown GitHub Organization"
         unknownOwnerDetail ds
  else ds.

(** The local [token] after the defaulting block: the environment value,
    replaced by the configured one when that is not null. *)
Definition resolveToken (env : gmap string string)
    (config : githubreposProviderModel) : string :=
  let token := Getenv env "GITHUB_TOKEN" in
  if negb (types.IsNull (Token config))
  then types.ValueString (Token config)
  else token.

(** The local [owner] after the defaulting block. *)
Definition resolveOwner (env : gmap string string)
    (config : githubreposProviderModel) : string :=
  let owner := Getenv env "GITHUB_OWNER" in
  if negb (types.IsNull (Owner config))
  then types.ValueString (Owner config)
  else owner.

(** The two emptiness checks of [Configure]. *)
Definition checkMissing (token owner : string) (ds : diag.Diagnostics)
    : diag.Diagnostics :=
  let ds :=
    if String.eqb token ""
    then diag.AddAttributeError "token" "Missing GitHub Token"
           missingTokenDetail ds
    else ds in
  if String.eqb owner ""
  then diag.AddAttributeError "owner" "Missing GitHub Organization"
         missingOwnerDetail ds
  else ds.

Definition withDiagnostics (resp : ConfigureResponse) (ds : diag.Diagnostics)
    : ConfigureResponse :=
  {| Diagnostics := ds; DataSourceData := DataSourceData resp;
     ResourceData := ResourceData resp |}.

(** [githubreposProvider.Configure]. [NewEnterpriseClient] is the
    constructor of the client library, given its two URLs (the third
    argument is always the zero [http.Client]); [env] is the process
    environment. The result is the response after the call and the log
    calls made. *)
Definition Configure (env : gmap string string)
    (NewEnterpriseClient : string -> string -> github.Client + string)
    (req : ConfigureRequest) (resp : ConfigureResponse)
    : ConfigureResponse * list event :=
  let '(config, diags) := ConfigGet req in
  let ds := diag.Append (Diagnostics resp) diags in
  if diag.HasError ds then (withDiagnostics resp ds, []) else
  let ds := checkUnknown config ds in
  if diag.HasError ds then (withDiagnostics resp ds, []) else
  let token := resolveToken env config in
  let owner := resolveOwner env config in
  let ds := checkMissing token owner ds in
  if diag.HasError ds then (withDiagnostics resp ds, []) else
  let log := [SetField "github_token" token;
              SetField "github_owner" owner;
              MaskFieldValuesWithFieldKeys "github_token";
              Debug "Creating GitHub client" []] in
  match NewEnterpriseClient "https://api.github.com/" "" with
  | inr err =>
      (withDiagnostics resp
         (diag.AddError "Unable to Create GitHub API Client"
            ("An unexpected error occurred when creating the GitHub API client. "
             +:+ "If the error is not clear, please contact the provider developers."
             +:+ String (Ascii.ascii_of_nat 10) (String (Ascii.ascii_of_nat 10) "")
             +:+ "GitHub Client Error: " +:+ err)
            ds),
       log)
  | inl client =>
      ({| Diagnostics := ds;
          DataSourceData := AnyGithubClient client;
          ResourceData := AnyGithubClient client |},
       log ++ [Info "Configured GitHub client" [("success", BoolField true)]])
  end.

End provider.

(** ** all_resource.go: the lifecycle methods *)

Module lifecycle.

(** [allResourceModel] *)
Record allResourceModel := {
  Repos : gmap string all_resource.allResourceRepoModel
}.

(** [resource.CreateRequest] and [resource.UpdateRequest]: what
    [req.Plan.Get(ctx, &state)] gives, the decoded model and the diagnostics
    of decoding it. *)
Record PlanRequest := {
  PlanGet : allResourceModel * diag.Diagnostics
}.

(** [resource.ReadRequest]: what [req.State.Get(ctx, &state)] gives. *)
Record ReadRequest := {
  StateGet : allResourceModel * diag.Diagnostics
}.

(** The two fields of [resource.CreateResponse], [resource.ReadResponse] and
    [resource.UpdateResponse]: the state, of the framework's type, and the
    diagnostics. *)
Record Response (StateT : Type) := {
  State : StateT;
  Diagnostics : diag.Diagnostics
}.

Arguments State {StateT} _.
Arguments Diagnostics {StateT} _.

(** How a method call ends, with the response as it stands then and the
    log and remote calls made. *)
Definition Result (StateT : Type) : Type :=
  Response StateT * outcome * list event.

(** [allResource.Create]. [StateSet] is the framework's
    [resp.State.Set(ctx, &state)]: the state after it and its diagnostics.
    No fuel left for the paging loop is [None]. *)
Definition Create {StateT : Type}
    (StateSet : StateT -> allResourceModel -> StateT * diag.Diagnostics)
    (fuel : nat) (r : all_resource.allResource) (req : PlanRequest)
    (resp : Response StateT) : option (Result StateT) :=
  let '(state, diags) := PlanGet req in
  let ds := diag.Append (Diagnostics resp) diags in
  if diag.HasError ds
  then Some ({| State := State resp; Diagnostics := ds |}, Returned None, [])
  else
    match all_resource.readRepositories fuel r (Repos state) with
    | None => None
    | Some (_, Panicked, evs) =>
        Some ({| State := State resp; Diagnostics := ds |}, Panicked, evs)
    | Some (_, Returned (Some err), evs) =>
        Some ({| State := State resp;
                 Diagnostics :=
                   diag.AddError "Error Reading GitHub Repositories"
                     ("Could not read GitHub repositories: " +:+ err) ds |},
              Returned None, evs)
    | Some (repos, Returned None, evs) =>
        let '(st, diags) := StateSet (State resp) {| Repos := repos |} in
        Some ({| State := st; Diagnostics := diag.Append ds diags |},
              Returned None, evs)
    end.

(** [allResource.Read] *)
Definition Read {StateT : Type}
    (StateSet : StateT -> allResourceModel -> StateT * diag.Diagnostics)
    (fuel : nat) (r : all_resource.allResource) (req : ReadRequest)
    (resp : Response StateT) : option (Result StateT) :=
  let '(state, diags) := StateGet req in
  let ds := diag.Append (Diagnostics resp) diags in
  if diag.HasError ds
  then Some ({| State := State resp; Diagnostics := ds |}, Returned None, [])
  else
    match all_resource.readRepositories fuel r (Repos state) with
    | None => None
    | Some (_, Panicked, evs) =>
        Some ({| State := State resp; Diagnostics := ds |}, Panicked, evs)
    | Some (_, Returned (Some err), evs) =>
        Some ({| State := State resp;
                 Diagnostics :=
                   diag.AddError "Error Reading GitHub Repositories"
                     ("Could not read GitHub repositories: " +:+ err) ds |},
              Returned None, evs)
    | Some (repos, Returned None, evs) =>
        let '(st, diags) := StateSet (State resp) {| Repos := repos |} in
        Some ({| State := st; Diagnostics := diag.Append ds diags |},
              Returned None, evs)
    end.

(** [allResource.Update] *)
Definition Update {StateT : Type}
    (StateSet : StateT -> allResourceModel -> StateT * diag.Diagnostics)
    (fuel : nat) (r : all_resource.allResource) (req : PlanRequest)
    (resp : Response StateT) : option (Result StateT) :=
  let '(state, diags) := PlanGet req in
  let ds := diag.Append (Diagnostics resp) diags in
  if diag.HasError ds
  then Some ({| State := State resp; Diagnostics := ds |}, Returned None, [])
  else
    match all_resource.readRepositories fuel r (Repos state) with
    | None => None
    | Some (_, Panicked, evs) =>
        Some ({| State := State resp; Diagnostics := ds |}, Panicked, evs)
    | Some (_, Returned (Some err), evs) =>
        Some ({| State := State resp;
                 Diagnostics :=
                   diag.AddError "Error Reading GitHub Repositories"
                     ("Could not read GitHub repositories: " +:+ err) ds |},
              Returned None, evs)
    | Some (repos, Returned None, evs) =>
        let '(st, diags) := StateSet (State resp) {| Repos := repos |} in
        Some ({| State := st; Diagnostics := diag.Append ds diags |},
              Returned None, evs)
    end.

End lifecycle.

(** ** The schemas and their descriptions *)

Module schema.

(** The attributes the two schemas use, with the fields they set; the
    fields left out have Go's zero values. A Go map of attributes is the
    list of its entries, whose keys are distinct. *)
#[warnings="-register-all"]
Inductive Attribute :=
| StringAttribute (Optional : bool) (Description : string)
| Int64Attribute (Description : string) (Computed : bool)
| MapNestedAttribute (Description : string) (Required : bool)
    (NestedObject : list (string * Attribute)).

Record Schema := {
  Description : string;
  Attributes : list (string * Attribute)
}.

End schema.

(** [descriptions] as [init] of provider.go sets it. *)
Definition descriptions : gmap string string :=
  <["token" :=
      "The OAuth token used to connect to GitHub. Anonymous mode is enabled if both `token` and "
      +:+ "`app_auth` are not set."]>
    (<["owner" :=
         "The GitHub owner name to manage. "
         +:+ "Use this field instead of `organization` when managing individual accounts."]>
       ∅).

(** [descriptions[key]]: the empty string for a key the map lacks. *)
Definition description (key : string) : string :=
  default "" (descriptions !! key).

(** [githubreposProvider.Schema] *)
Definition providerSchema : schema.Schema :=
  {| schema.Description := "";
     schema.Attributes :=
       [("token", schema.StringAttribute true (description "token"));
        ("owner", schema.StringAttribute true (description "owner"))] |}.

(** [allResource.Schema] *)
Definition allResourceSchema : schema.Schema :=
  {| schema.Description := description "all_resource_schema";
     schema.Attributes :=
       [("repos",
         schema.MapNestedAttribute (description "repos") true
           [("id", schema.Int64Attribute (description "repo_id") true)])] |}.

(** ** Notions the properties are stated with *)

Import all_resource.

(** The options of call number [n] (from 0) of the paging loop started at
    [opt], when the loop gets that far: every earlier call succeeded and
    announced a next page. *)
Fixpoint requestAt (n : nat) (c : github.Client) (org : string)
    (opt : github.RepositoryListByOrgOptions)
    : option github.RepositoryListByOrgOptions :=
  match n with
  | O => Some opt
  | S n' =>
      match github.ListByOrg c org opt with
      | inl (_, gresp) =>
          if github.NextPage gresp =? 0 then None
          else requestAt n' c org (github.setPage opt (github.NextPage gresp))
      | inr _ => None
      end
  end.

(** A complete listing, as the contract describes it: the calls made from
    [opt] on, each answered with a page, each page but the last announcing
    the next one, and the pages in order as one sequence. *)
Inductive fullListing (c : github.Client) (org : string)
  : github.RepositoryListByOrgOptions -> list event -> list github.Repository
    -> Prop :=
| fullListing_last opt repos gresp :
    github.ListByOrg c org opt = inl (repos, gresp) ->
    github.NextPage gresp = 0 ->
    fullListing c org opt [ListByOrgCall org opt] repos
| fullListing_next opt repos gresp calls rest :
    github.ListByOrg c org opt = inl (repos, gresp) ->
    github.NextPage gresp <> 0 ->
    fullListing c org (github.setPage opt (github.NextPage gresp)) calls rest ->
    fullListing c org opt (ListByOrgCall org opt :: calls) (repos ++ rest).

(** An event that, when it is a remote call, is a call for a page of 100 of
    [org]'s repositories sorted by full name. *)
Definition pageRequest (org : string) (ev : event) : Prop :=
  match ev with
  | ListByOrgCall org' opt =>
      org' = org /\ github.Sort opt = "full_name"
      /\ github.PerPage (github.ListOptions_ opt) = 100
  | _ => True
  end.

(** A record as the remote is specified to send it: name and identifier
    both there. *)
Definition complete (repo : github.Repository) : Prop :=
  is_Some (github.Name repo) /\ is_Some (github.ID repo).

(** The last record of [allRepos] named [k]. *)
Fixpoint lastNamed (k : string) (allRepos : list github.Repository)
    : option github.Repository :=
  match allRepos with
  | [] => None
  | repo :: rest =>
      match lastNamed k rest with
      | Some repo' => Some repo'
      | None => if bool_decide (github.Name repo = Some k) then Some repo else None
      end
  end.

(** The state entry holding a known identifier. *)
Definition known (id : Z) : allResourceRepoModel :=
  {| ID := types.Int64Value id |}.

(** The four attribute diagnostics of the provider's [Configure]. *)
Definition unknownToken : diag.Diagnostic :=
  {| diag.Severity_ := diag.SeverityError; diag.Attribute := Some "token";
     diag.Summary := "Unknown GitHub API Token";
     diag.Detail := provider.unknownTokenDetail |}.

Definition unknownOwner : diag.Diagnostic :=
  {| diag.Severity_ := diag.SeverityError; diag.Attribute := Some "owner";
     diag.Summary := "Unknown GitHub Organization";
     diag.Detail := provider.unknownOwnerDetail |}.

Definition missingToken : diag.Diagnostic :=
  {| diag.Severity_ := diag.SeverityError; diag.Attribute := Some "token";
     diag.Summary := "Missing GitHub Token";
     diag.Detail := provider.missingTokenDetail |}.

Definition missingOwner : diag.Diagnostic :=
  {| diag.Severity_ := diag.SeverityError; diag.Attribute := Some "owner";
     diag.Summary := "Missing GitHub Organization";
     diag.Detail := provider.missingOwnerDetail |}.

(** The diagnostics [Configure] starts its checks from: those of the
    response it is given and of decoding the configuration. *)
Definition priorDiagnostics (req : provider.ConfigureRequest)
    (resp : provider.ConfigureResponse) : diag.Diagnostics :=
  diag.Append (provider.Diagnostics resp) (snd (provider.ConfigGet req)).

(** A record the merge loop gets past: it has a name, and an identifier too
    when the name is a key of the map. *)
Definition mergeable (m : gmap string allResourceRepoModel)
    (repo : github.Repository) : Prop :=
  exists name, github.Name repo = Some name
               /\ (name ∈ dom m -> is_Some (github.ID repo)).

(** A remote that answers every call with a page and the announcement of
    another. *)
Definition alwaysMore (c : github.Client) (org : string) : Prop :=
  forall opt, exists repos gresp,
    github.ListByOrg c org opt = inl (repos, gresp)
    /\ github.NextPage gresp <> 0.

Definition isRemoteCall (ev : event) : bool :=
  match ev with ListByOrgCall _ _ => true | _ => false end.

(** The remote calls among the events. *)
Definition remoteCalls (evs : list event) : list event :=
  List.filter isRemoteCall evs.

(** A log entry, as opposed to a change of the logging context or a remote
    call. *)
Definition isLogEntry (ev : event) : bool :=
  match ev with Debug _ _ | Info _ _ => true | _ => false end.

(** All descriptions of an attribute and the attributes nested in it. *)
Fixpoint attributeDescriptions (a : schema.Attribute) : list string :=
  match a with
  | schema.StringAttribute _ d => [d]
  | schema.Int64Attribute d _ => [d]
  | schema.MapNestedAttribute d _ nested =>
      d :: (fix go (l : list (string * schema.Attribute)) : list string :=
              match l with
              | [] => []
              | (_, a') :: rest => attributeDescriptions a' ++ go rest
              end) nested
  end.

(** All descriptions of a schema. *)
Definition schemaDescriptions (s : schema.Schema) : list string :=
  schema.Description s
  :: concat ((fun '(_, a) => attributeDescriptions a) <$> schema.Attributes s).

(** ** Scenarios *)

Module scenario.

(** A remote that serves [listing] in pages of the requested size; page 0
    is page 1, and the next page is announced while records remain. *)
Definition serve (listing : list github.Repository) : github.Client :=
  {| github.ListByOrg := fun _ opt =>
       let per := Z.to_nat (github.PerPage (github.ListOptions_ opt)) in
       let page := if github.Page (github.ListOptions_ opt) =? 0 then 1
                   else github.Page (github.ListOptions_ opt) in
       let start := (Z.to_nat (page - 1) * per)%nat in
       inl (take per (drop start listing),
            {| github.NextPage :=
                 if (start + per <? length listing)%nat then page + 1 else 0 |})
  |}.

(** A remote whose pages are scripted: page [p] (0 is page 1) is entry
    [p - 1] of [script]; past its end the call fails. *)
Definition scripted (script : list github.ListResult) : github.Client :=
  {| github.ListByOrg := fun _ opt =>
       let page := if github.Page (github.ListOptions_ opt) =? 0 then 1
                   else github.Page (github.ListOptions_ opt) in
       default (inr "404 Not Found") (script !! Z.to_nat (page - 1)) |}.

Definition repo (name : string) (id : Z) : github.Repository :=
  {| github.ID := Some id; github.Name := Some name |}.

(** Record number [i] of the long listing. *)
Definition numbered (i : nat) : github.Repository :=
  repo ("repo-" +:+ pretty i) (Z.of_nat i + 1).

Definition listing240 : list github.Repository := numbered <$> seq 0 240.

Definition tracked (names : list string) : gmap string allResourceRepoModel :=
  list_to_map ((fun n => (n, {| ID := types.Int64Null |})) <$> names).

Definition resourceOf (org : string) (c : github.Client) : allResource :=
  {| owner := org; client := Some c |}.

Definition calls (evs : list event) : list github.RepositoryListByOrgOptions :=
  omap (fun ev => match ev with ListByOrgCall _ opt => Some opt | _ => None end) evs.

(** The response the framework hands to the provider's [Configure]. *)
Definition freshResponse : provider.ConfigureResponse :=
  {| provider.Diagnostics := []; provider.DataSourceData := AnyNil;
     provider.ResourceData := AnyNil |}.

(** A request whose configuration decodes to [token] and [owner] without
    diagnostics. *)
Definition configured (token owner : types.String) : provider.ConfigureRequest :=
  {| provider.ConfigGet :=
       ({| provider.Token := token; provider.Owner := owner |}, []) |}.

(** A client constructor that succeeds with [c]. *)
Definition constructs (c : github.Client) : string -> string -> github.Client + string :=
  fun _ _ => inl c.

(** A resource that has not been configured. *)
Definition unconfigured : allResource := {| owner := ""; client := None |}.

(** A remote that never stops announcing page 2. *)
Definition endless : github.Client :=
  {| github.ListByOrg := fun _ _ => inl ([], {| github.NextPage := 2 |}) |}.

(** A framework state that holds the model set last, and a [State.Set]
    that stores without diagnostics. *)
Definition store (st : option lifecycle.allResourceModel)
    (v : lifecycle.allResourceModel)
    : option lifecycle.allResourceModel * diag.Diagnostics :=
  (Some v, []).

(** A read request whose stored state decodes to [m] without diagnostics. *)
Definition stored (m : gmap string allResourceRepoModel) : lifecycle.ReadRequest :=
  {| lifecycle.StateGet := ({| lifecycle.Repos := m |}, []) |}.

(** The response the framework hands to [Read], holding the prior state. *)
Definition holding (m : gmap string allResourceRepoModel)
    : lifecycle.Response (option lifecycle.allResourceModel) :=
  {| lifecycle.State := Some {| lifecycle.Repos := m |};
     lifecycle.Diagnostics := [] |}.

End scenario.

(** ** The paging loop *)

Section paging.

Context (c : github.Client) (org : string).

Lemma listAll_more_fuel fuel fuel' opt acc res :
  listAll fuel c org opt acc = Some res ->
  (fuel <= fuel')%nat ->
  listAll fuel' c org opt acc = Some res.
Proof.
  revert fuel' opt acc res.
  induction fuel as [|fuel IH]; intros fuel' opt acc res Hrun Hle; [done|].
  destruct fuel' as [|fuel']; [lia|].
  simpl in *.
  destruct (github.ListByOrg c org opt) as [[repos gresp]|err]; [|done].
  destruct (github.NextPage gresp =? 0); [done|].
  destruct (listAll fuel c org _ _) as [[res' evs]|] eqn:Hrec; [|done].
  rewrite (IH fuel' _ _ _ Hrec); [done | lia].
Qed.

Lemma listAll_fails n : forall fuel opt acc optn err,
  requestAt n c org opt = Some optn ->
  github.ListByOrg c org optn = inr err ->
  (n < fuel)%nat ->
  exists calls, listAll fuel c org opt acc = Some (inl err, calls).
Proof.
  induction n as [|n IH]; intros fuel opt acc optn err Hat Herr Hfuel;
    (destruct fuel as [|fuel]; [lia|]); simpl in *.
  - injection Hat as ->. rewrite Herr. eauto.
  - destruct (github.ListByOrg c org opt) as [[repos gresp]|err']; [|done].
    destruct (github.NextPage gresp =? 0); [done|].
    destruct (IH fuel _ (acc ++ repos) _ _ Hat Herr) as [calls ->]; [lia|].
    eauto.
Qed.

Lemma listAll_fullListing fuel : forall opt acc L calls,
  listAll fuel c org opt acc = Some (inr L, calls) ->
  exists pages, L = acc ++ pages /\ fullListing c org opt calls pages.
Proof.
  induction fuel as [|fuel IH]; intros opt acc L calls Hrun; [done|].
  simpl in Hrun.
  destruct (github.ListByOrg c org opt) as [[repos gresp]|err] eqn:Hcall; [|done].
  destruct (github.NextPage gresp =? 0) eqn:Hnext.
  - injection Hrun as <- <-. exists repos. split; [done|].
    eapply fullListing_last; [done | lia].
  - destruct (listAll fuel c org _ _) as [[res evs]|] eqn:Hrec; [|done].
    injection Hrun as -> <-.
    destruct (IH _ _ _ _ Hrec) as (pages & -> & Hpages).
    exists (repos ++ pages). split; [by rewrite app_assoc|].
    eapply fullListing_next; [done | lia | done].
Qed.

Lemma listAll_pageRequest fuel : forall opt acc res calls,
  github.Sort opt = "full_name" ->
  github.PerPage (github.ListOptions_ opt) = 100 ->
  listAll fuel c org opt acc = Some (res, calls) ->
  Forall (pageRequest org) calls.
Proof.
  induction fuel as [|fuel IH]; intros opt acc res calls Hsort Hper Hrun; [done|].
  simpl in Hrun.
  destruct (github.ListByOrg c org opt) as [[repos gresp]|err].
  - destruct (github.NextPage gresp =? 0).
    + injection Hrun as <- <-. by repeat constructor.
    + destruct (listAll fuel c org _ _) as [[res' evs]|] eqn:Hrec; [|done].
      injection Hrun as <- <-. constructor; [done|].
      by eapply IH; [| |exact Hrec].
  - injection Hrun as <- <-. by repeat constructor.
Qed.

Lemma fullListing_unique opt calls1 L1 :
  fullListing c org opt calls1 L1 ->
  forall calls2 L2, fullListing c org opt calls2 L2 ->
  calls1 = calls2 /\ L1 = L2.
Proof.
  induction 1 as [opt repos gresp Hcall Hnext
                 |opt repos gresp calls rest Hcall Hnext Hrest IH];
    intros calls2 L2 H2; inversion H2 as [? repos' gresp' Hcall' Hnext'
                                        |? repos' gresp' calls' rest' Hcall' Hnext' Hrest'];
    subst; rewrite Hcall in Hcall'; injection Hcall' as <- <-; try done.
  by destruct (IH _ _ Hrest') as [-> ->].
Qed.

Lemma fullListing_listAll opt calls L :
  fullListing c org opt calls L ->
  forall fuel acc, (length calls <= fuel)%nat ->
  listAll fuel c org opt acc = Some (inr (acc ++ L), calls).
Proof.
  induction 1 as [opt repos gresp Hcall Hnext
                 |opt repos gresp calls rest Hcall Hnext Hrest IH];
    intros fuel acc Hfuel; (destruct fuel as [|fuel]; [simpl in Hfuel; lia|]);
    simpl; rewrite Hcall.
  - by rewrite Hnext.
  - apply Z.eqb_neq in Hnext. rewrite Hnext.
    rewrite IH by (simpl in Hfuel; lia). by rewrite app_assoc.
Qed.

End paging.

(** ** The merge loop *)

Lemma setRepo_dom (m m1 : gmap string allResourceRepoModel) repo :
  setRepo m repo = Some m1 -> dom m1 = dom m.
Proof.
  unfold setRepo. intros H.
  destruct (github.Name repo) as [name|]; [|done].
  destruct (m !! name) as [v|] eqn:Hm; [|congruence].
  destruct (github.ID repo) as [id|]; [|done].
  simplify_eq. rewrite dom_insert_L.
  apply (elem_of_dom_2 m) in Hm.
  apply subseteq_union_1_L. by apply singleton_subseteq_l.
Qed.

Lemma setRepos_dom allRepos : forall (m m' : gmap string allResourceRepoModel) ok,
  setRepos m allRepos = (m', ok) -> dom m' = dom m.
Proof.
  induction allRepos as [|repo rest IH]; intros m m' ok H; simpl in H.
  - by injection H as <- _.
  - destruct (setRepo m repo) as [m1|] eqn:H1; [|by injection H as <- _].
    rewrite (IH _ _ _ H). by eapply setRepo_dom.
Qed.

(** What one iteration leaves under a key. *)
Lemma setRepo_lookup (m m1 : gmap string allResourceRepoModel) repo k :
  setRepo m repo = Some m1 ->
  m1 !! k =
    match m !! k with
    | None => None
    | Some v =>
        if bool_decide (github.Name repo = Some k)
        then known <$> github.ID repo
        else Some v
    end.
Proof.
  unfold setRepo. intros H.
  destruct (github.Name repo) as [name|]; [|done].
  destruct (m !! name) as [v|] eqn:Hm.
  - destruct (github.ID repo) as [id|]; [|done].
    injection H as <-. case_bool_decide as Hk.
    + injection Hk as ->. by rewrite lookup_insert_eq, Hm.
    + rewrite lookup_insert_ne by congruence. by destruct (m !! k).
  - injection H as <-. case_bool_decide as Hk.
    + injection Hk as ->. by rewrite Hm.
    + by destruct (m !! k).
Qed.

(** What the whole loop leaves under a key, when it runs to its end. *)
Lemma setRepos_lookup allRepos : forall (m m' : gmap string allResourceRepoModel) k,
  setRepos m allRepos = (m', true) ->
  m' !! k =
    match m !! k with
    | None => None
    | Some v =>
        match lastNamed k allRepos with
        | None => Some v
        | Some repo => known <$> github.ID repo
        end
    end.
Proof.
  induction allRepos as [|repo rest IH]; intros m m' k H; simpl in H.
  - injection H as <-. simpl. by destruct (m !! k).
  - destruct (setRepo m repo) as [m1|] eqn:H1; [|done].
    rewrite (IH _ _ k H), (setRepo_lookup _ _ _ k H1). simpl.
    destruct (m !! k) as [v|] eqn:Hm; [|done].
    case_bool_decide as Hk.
    + unfold setRepo in H1. rewrite Hk, Hm in H1.
      destruct (github.ID repo) as [id|] eqn:Hid; [|done]. simpl.
      destruct (lastNamed k rest); [done|]. by rewrite Hid.
    + by destruct (lastNamed k rest).
Qed.

(** Whether the loop runs to its end depends on the keys only. *)
Lemma setRepos_ok_dom allRepos : forall (m m' n : gmap string allResourceRepoModel),
  setRepos m allRepos = (m', true) ->
  dom n = dom m ->
  exists n', setRepos n allRepos = (n', true).
Proof.
  induction allRepos as [|repo rest IH]; intros m m' n H Hdom; simpl in *.
  - eauto.
  - destruct (setRepo m repo) as [m1|] eqn:H1; [|done].
    assert (exists n1, setRepo n repo = Some n1) as [n1 Hn1].
    { unfold setRepo in *.
      destruct (github.Name repo) as [name|]; [|done].
      assert (is_Some (n !! name) <-> is_Some (m !! name)) as Hiff
        by (rewrite <- !elem_of_dom, Hdom; done).
      destruct (n !! name) as [w|]; [|eauto].
      destruct Hiff as [[v Hv] _]; [eauto|]. rewrite Hv in H1.
      destruct (github.ID repo); [eauto | done]. }
    rewrite Hn1. apply (IH _ _ _ H).
    by rewrite (setRepo_dom _ _ _ Hn1), (setRepo_dom _ _ _ H1).
Qed.

(** Complete records never make the loop panic. *)
Lemma setRepos_complete allRepos : forall (m : gmap string allResourceRepoModel),
  Forall complete allRepos ->
  exists m', setRepos m allRepos = (m', true).
Proof.
  induction allRepos as [|repo rest IH]; intros m Hall; simpl; [eauto|].
  apply Forall_cons in Hall as [[[name Hname] [id Hid]] Hrest].
  unfold setRepo. rewrite Hname, Hid.
  destruct (m !! name); by apply IH.
Qed.

Lemma lastNamed_None k allRepos :
  lastNamed k allRepos = None <->
  forall repo, repo ∈ allRepos -> github.Name repo <> Some k.
Proof.
  induction allRepos as [|repo rest IH]; simpl.
  - split; [|done]. intros _ repo Hin. by apply elem_of_nil in Hin.
  - destruct (lastNamed k rest) as [r|].
    + split; [done|]. intros Hall. exfalso.
      assert (Some r = None) as Habs; [|done].
      apply IH. intros r' Hin. apply Hall. by right.
    + case_bool_decide as Hk.
      * split; [done|]. intros Hall. exfalso. by apply (Hall repo); [left|].
      * split; [|done]. intros _ r' Hin.
        apply elem_of_cons in Hin as [->|Hin]; [done|]. by apply IH.
Qed.


Lemma lastNamed_Some k allRepos repo :
  lastNamed k allRepos = Some repo ->
  repo ∈ allRepos /\ github.Name repo = Some k.
Proof.
  induction allRepos as [|r rest IH]; simpl; [done|].
  destruct (lastNamed k rest) as [r'|].
  - intros [= ->]. destruct IH as [Hin Hname]; [done|]. split; [by right | done].
  - case_bool_decide; [|done]. intros [= ->]. split; [by left | done].
Qed.

(** ** readRepositories, taken apart *)

Lemma readRepositories_success fuel r m m' evs :
  readRepositories fuel r m = Some (m', Returned None, evs) ->
  exists c allRepos calls,
    client r = Some c
    /\ listAll fuel c (owner r) initialOptions [] = Some (inr allRepos, calls)
    /\ setRepos m allRepos = (m', true)
    /\ evs = [Debug "Reading GitHub repositories" []] ++ calls
             ++ [Debug "GitHub repos are read"
                       [("count", IntField (Z.of_nat (length allRepos)))];
                 Debug "Setting repos to state" []]
             ++ [Debug "Finished reading GitHub repositories" []].
Proof.
  unfold readRepositories. intros H.
  destruct (client r) as [c|]; [|done].
  destruct (listAll fuel c (owner r) initialOptions [])
    as [[[err|allRepos] calls]|] eqn:Hlist; [done| |done].
  destruct (setRepos m allRepos) as [m1 [|]] eqn:Hset; [|done].
  injection H as <- <-. exists c, allRepos, calls.
  repeat split; try done. simpl. by rewrite <- app_assoc.
Qed.

Lemma readRepositories_listed fuel r c m m' allRepos calls :
  client r = Some c ->
  listAll fuel c (owner r) initialOptions [] = Some (inr allRepos, calls) ->
  setRepos m allRepos = (m', true) ->
  exists evs, readRepositories fuel r m = Some (m', Returned None, evs).
Proof.
  intros Hc Hlist Hset. unfold readRepositories. rewrite Hc, Hlist, Hset. eauto.
Qed.

(** ** Properties of readRepositories *)

(** C1. When some page of the listing fails to be fetched (call number [n]
    of the paging loop is reached and answered with an error), then with
    fuel for that many calls readRepositories returns that error and the
    state map is the one it was given: nothing of any page, fetched before
    the failure or not, is merged. *)
Theorem readRepositories_fetch_error_leaves_state fuel r c
    (m : gmap string allResourceRepoModel) n opt err :
  client r = Some c ->
  requestAt n c (owner r) initialOptions = Some opt ->
  github.ListByOrg c (owner r) opt = inr err ->
  (n < fuel)%nat ->
  exists evs, readRepositories fuel r m = Some (m, Returned (Some err), evs).
Proof.
  intros Hc Hat Herr Hfuel. unfold readRepositories. rewrite Hc.
  destruct (listAll_fails c (owner r) n fuel initialOptions [] opt err)
    as [calls ->]; eauto.
Qed.

(** Page 1 of 3 is served, page 2 fails. *)
Lemma readRepositories_fetch_error_leaves_state_witness :
  exists evs,
    readRepositories 5
      (scenario.resourceOf "acme"
         (scenario.scripted
            [inl ([scenario.repo "alpha" 1], {| github.NextPage := 2 |});
             inr "502 Bad Gateway";
             inl ([scenario.repo "beta" 2], {| github.NextPage := 0 |})]))
      (scenario.tracked ["alpha"; "beta"])
    = Some (scenario.tracked ["alpha"; "beta"],
            Returned (Some "502 Bad Gateway"), evs).
Proof.
  eapply (readRepositories_fetch_error_leaves_state 5 _ _ _ 1
            (github.setPage initialOptions 2)).
  - reflexivity.
  - reflexivity.
  - reflexivity.
  - lia.
Defined.

(** C2. After a successful readRepositories the state map has the keys it
    had before, no more and no fewer, and every key that is the name of no
    record of the listing holds the entry it held (an entry being its id,
    that is all that can have changed under the other keys). *)
Theorem readRepositories_keeps_keys fuel r c
    (m m' : gmap string allResourceRepoModel) evs calls allRepos :
  client r = Some c ->
  fullListing c (owner r) initialOptions calls allRepos ->
  readRepositories fuel r m = Some (m', Returned None, evs) ->
  dom m' = dom m
  /\ (forall k, k ∉ dom m -> m' !! k = None)
  /\ (forall k, (forall repo, repo ∈ allRepos -> github.Name repo <> Some k) ->
                m' !! k = m !! k).
Proof.
  intros Hc Hfull Hrun.
  apply readRepositories_success in Hrun
    as (c' & allRepos' & calls' & Hc' & Hlist & Hset & _).
  rewrite Hc in Hc'. injection Hc' as <-.
  apply listAll_fullListing in Hlist as (pages & -> & Hpages). simpl in Hset.
  destruct (fullListing_unique _ _ _ _ _ Hfull _ _ Hpages) as [_ <-].
  pose proof (setRepos_dom _ _ _ _ Hset) as Hdom.
  split; [done|]. split.
  - intros k Hk. apply not_elem_of_dom. by rewrite Hdom.
  - intros k Hk. rewrite (setRepos_lookup _ _ _ k Hset).
    apply lastNamed_None in Hk. rewrite Hk. by destruct (m !! k).
Qed.

Lemma readRepositories_keeps_keys_witness :
  let c := scenario.scripted
             [inl ([scenario.repo "alpha" 1; scenario.repo "gamma" 3],
                   {| github.NextPage := 0 |})] in
  let m := scenario.tracked ["alpha"; "beta"] in
  let m' := <["alpha" := known 1]> m in
  dom m' = dom m
  /\ (forall k, k ∉ dom m -> m' !! k = None)
  /\ (forall k, (forall repo, repo ∈ [scenario.repo "alpha" 1; scenario.repo "gamma" 3] ->
                              github.Name repo <> Some k) ->
                m' !! k = m !! k).
Proof.
  intros c m m'.
  eapply (readRepositories_keeps_keys 1 (scenario.resourceOf "acme" c) c m m').
  - reflexivity.
  - eapply fullListing_last; reflexivity.
  - vm_compute. reflexivity.
Defined.

(** C3. For a listing that is fetched in full and whose records are
    complete, readRepositories (given fuel for the calls) returns without
    error and leaves a map in which: an entry whose name is the name of a
    fetched record holds the identifier of such a record; an entry whose
    name is no fetched record's name is as it was; and a name that was no
    key is no key. In the scenario with alpha and beta tracked and alpha
    and gamma listed, alpha gets 1 and beta stays null. *)
Theorem readRepositories_overwrites_listed :
  (forall fuel r c (m : gmap string allResourceRepoModel) calls allRepos,
     client r = Some c ->
     fullListing c (owner r) initialOptions calls allRepos ->
     Forall complete allRepos ->
     (length calls <= fuel)%nat ->
     exists m' evs,
       readRepositories fuel r m = Some (m', Returned None, evs)
       /\ (forall k v, m !! k = Some v ->
             (exists repo, repo ∈ allRepos /\ github.Name repo = Some k) ->
             exists repo id, repo ∈ allRepos /\ github.Name repo = Some k
                             /\ github.ID repo = Some id
                             /\ m' !! k = Some (known id))
       /\ (forall k v, m !! k = Some v ->
             (forall repo, repo ∈ allRepos -> github.Name repo <> Some k) ->
             m' !! k = Some v)
       /\ (forall k, m !! k = None -> m' !! k = None))
  /\ (fun '(m', out, _) => (m', out)) <$>
       readRepositories 1
         (scenario.resourceOf "acme"
            (scenario.scripted
               [inl ([scenario.repo "alpha" 1; scenario.repo "gamma" 3],
                     {| github.NextPage := 0 |})]))
         (<["alpha" := {| ID := types.Int64Null |}]>
            (<["beta" := {| ID := types.Int64Null |}]> ∅))
     = Some (<["alpha" := {| ID := types.Int64Value 1 |}]>
               (<["beta" := {| ID := types.Int64Null |}]> ∅),
             Returned None).
Proof.
  split; [|by vm_compute].
  intros fuel r c m calls allRepos Hc Hfull Hcomplete Hfuel.
  destruct (setRepos_complete allRepos m Hcomplete) as [m' Hset].
  pose proof (fullListing_listAll _ _ _ _ _ Hfull fuel [] Hfuel) as Hlist.
  simpl in Hlist.
  destruct (readRepositories_listed _ _ _ _ _ _ _ Hc Hlist Hset) as [evs Hrun].
  exists m', evs. split; [done|].
  assert (forall k, m' !! k = _) as Hlook
    by (intros k; exact (setRepos_lookup _ _ _ k Hset)).
  repeat split.
  - intros k v Hk (repo & Hin & Hname). specialize (Hlook k). rewrite Hk in Hlook.
    destruct (lastNamed k allRepos) as [repo'|] eqn:Hlast.
    + apply lastNamed_Some in Hlast as [Hin' Hname'].
      rewrite Forall_forall in Hcomplete.
      destruct (Hcomplete _ Hin') as [_ [id Hid]].
      exists repo', id. rewrite Hlook, Hid. done.
    + exfalso. by eapply lastNamed_None.
  - intros k v Hk Hnone. specialize (Hlook k). rewrite Hk in Hlook.
    apply lastNamed_None in Hnone. by rewrite Hlook, Hnone.
  - intros k Hk. specialize (Hlook k). by rewrite Hk in Hlook.
Qed.

Lemma readRepositories_overwrites_listed_witness :
  let r := scenario.resourceOf "acme"
             (scenario.scripted
                [inl ([scenario.repo "alpha" 1], {| github.NextPage := 2 |});
                 inl ([scenario.repo "gamma" 3], {| github.NextPage := 0 |})]) in
  let m := scenario.tracked ["alpha"; "beta"] in
  let allRepos := [scenario.repo "alpha" 1] ++ [scenario.repo "gamma" 3] in
  exists m' evs,
    readRepositories 2 r m = Some (m', Returned None, evs)
    /\ (forall k v, m !! k = Some v ->
          (exists repo, repo ∈ allRepos /\ github.Name repo = Some k) ->
          exists repo id, repo ∈ allRepos /\ github.Name repo = Some k
                          /\ github.ID repo = Some id
                          /\ m' !! k = Some (known id))
    /\ (forall k v, m !! k = Some v ->
          (forall repo, repo ∈ allRepos -> github.Name repo <> Some k) ->
          m' !! k = Some v)
    /\ (forall k, m !! k = None -> m' !! k = None).
Proof.
  intros r m allRepos.
  apply (proj1 readRepositories_overwrites_listed 2%nat r
           (scenario.scripted
              [inl ([scenario.repo "alpha" 1], {| github.NextPage := 2 |});
               inl ([scenario.repo "gamma" 3], {| github.NextPage := 0 |})])
           m
           [ListByOrgCall "acme" initialOptions;
            ListByOrgCall "acme" (github.setPage initialOptions 2)]
           allRepos eq_refl).
  - eapply fullListing_next; [reflexivity | done |].
    eapply fullListing_last; reflexivity.
  - repeat constructor; by eexists.
  - simpl. lia.
Defined.



(** C8. readRepositories is idempotent: run again on the map a successful
    run left, against the same remote, it succeeds and leaves that map as
    it is (and makes the same calls and log entries). *)
Theorem readRepositories_idempotent fuel r
    (m m' : gmap string allResourceRepoModel) evs :
  readRepositories fuel r m = Some (m', Returned None, evs) ->
  readRepositories fuel r m' = Some (m', Returned None, evs).
Proof.
  intros Hrun.
  apply readRepositories_success in Hrun
    as (c & allRepos & calls & Hc & Hlist & Hset & ->).
  destruct (setRepos_ok_dom allRepos m m' m' Hset) as [m'' Hset'];
    [by eapply setRepos_dom|].
  assert (m'' = m') as ->.
  { apply map_eq. intros k.
    rewrite (setRepos_lookup _ _ _ k Hset'), (setRepos_lookup _ _ _ k Hset).
    destruct (m !! k) as [v|]; [|done].
    destruct (lastNamed k allRepos) as [repo|]; [|done].
    by destruct (github.ID repo). }
  unfold readRepositories. rewrite Hc, Hlist, Hset'. simpl.
  by rewrite <- app_assoc.
Qed.

Lemma readRepositories_idempotent_witness :
  let r := scenario.resourceOf "acme"
             (scenario.scripted
                [inl ([scenario.repo "alpha" 1; scenario.repo "gamma" 3],
                      {| github.NextPage := 0 |})]) in
  exists evs,
    readRepositories 1 r (<["alpha" := known 1]> (scenario.tracked ["alpha"; "beta"]))
    = Some (<["alpha" := known 1]> (scenario.tracked ["alpha"; "beta"]),
            Returned None, evs).
Proof.
  intros r. eexists.
  apply (readRepositories_idempotent 1 r (scenario.tracked ["alpha"; "beta"])).
  vm_compute. reflexivity.
Defined.

(** C4. Every remote call of readRepositories asks for a page of 100 of the
    owner's repositories sorted by full name; a run that succeeds has made
    the calls of a complete listing (the first for the initial options,
    each further one for the page the previous answer announced, the last
    answer announcing none) and has merged, into the map it was given, the
    pages of that listing in order as one sequence. For 240 records served
    as 100, 100 and 40, three calls are made and all 240 identifiers are
    merged. *)
Theorem readRepositories_pages :
  (forall fuel r c (m m' : gmap string allResourceRepoModel) out evs,
     client r = Some c ->
     readRepositories fuel r m = Some (m', out, evs) ->
     Forall (pageRequest (owner r)) evs
     /\ (out = Returned None ->
         exists calls allRepos,
           fullListing c (owner r) initialOptions calls allRepos
           /\ evs = [Debug "Reading GitHub repositories" []] ++ calls
                    ++ [Debug "GitHub repos are read"
                              [("count", IntField (Z.of_nat (length allRepos)))];
                        Debug "Setting repos to state" []]
                    ++ [Debug "Finished reading GitHub repositories" []]
           /\ setRepos m allRepos = (m', true)))
  /\ (let c := scenario.serve scenario.listing240 in
      let names := (fun i => "repo-" +:+ pretty i) <$> seq 0 240 in
      match readRepositories 3 (scenario.resourceOf "acme" c)
                             (scenario.tracked ("other" :: names)) with
      | Some (m', Returned None, evs) =>
          scenario.calls evs
          = [initialOptions; github.setPage initialOptions 2;
             github.setPage initialOptions 3]
          /\ (fun opt => match github.ListByOrg c "acme" opt with
                         | inl (repos, _) => length repos
                         | inr _ => O
                         end) <$> scenario.calls evs = [100; 100; 40]%nat
          /\ m' = <["other" := {| ID := types.Int64Null |}]>
                    (list_to_map
                       ((fun i => ("repo-" +:+ pretty i, known (Z.of_nat i + 1)))
                          <$> seq 0 240))
      | _ => False
      end).
Proof.
  split.
  2: { intros c names.
       set (expected := <["other" := _]> _).
       set (run := readRepositories 3 _ _).
       assert (match run with
               | Some (m', Returned None, evs) =>
                   bool_decide
                     (scenario.calls evs
                      = [initialOptions; github.setPage initialOptions 2;
                         github.setPage initialOptions 3])
                   && bool_decide
                        ((fun opt => match github.ListByOrg c "acme" opt with
                                     | inl (repos, _) => length repos
                                     | inr _ => O
                                     end) <$> scenario.calls evs
                         = [100; 100; 40]%nat)
                   && bool_decide (m' = expected)
               | _ => false
               end = true) as Hcheck by (vm_compute; reflexivity).
       destruct run as [[[m' [[err|]|]] evs]|]; try discriminate Hcheck.
       apply andb_prop in Hcheck as [Hcheck Hmap].
       apply andb_prop in Hcheck as [Hcalls Hsizes].
       apply bool_decide_eq_true_1 in Hmap, Hcalls, Hsizes.
       by repeat split. }
  intros fuel r c m m' out evs Hc Hrun. split.
  - unfold readRepositories in Hrun. rewrite Hc in Hrun.
    destruct (listAll fuel c (owner r) initialOptions [])
      as [[res calls]|] eqn:Hlist; [|done].
    apply listAll_pageRequest in Hlist; [|done..].
    destruct res as [err|allRepos].
    + injection Hrun as <- <- <-. by constructor.
    + destruct (setRepos m allRepos) as [m1 [|]]; injection Hrun as <- <- <-;
        simpl; rewrite ?Forall_cons, ?Forall_app, ?Forall_cons, ?Forall_nil;
        simpl; tauto.
  - intros ->.
    apply readRepositories_success in Hrun
      as (c' & allRepos & calls & Hc' & Hlist & Hset & ->).
    rewrite Hc in Hc'. injection Hc' as <-.
    apply listAll_fullListing in Hlist as (pages & -> & Hpages).
    by exists calls, pages.
Qed.

Lemma readRepositories_pages_witness :
  let c := scenario.scripted
             [inl ([scenario.repo "alpha" 1], {| github.NextPage := 2 |});
              inl ([scenario.repo "gamma" 3], {| github.NextPage := 0 |})] in
  exists calls allRepos,
    fullListing c "acme" initialOptions calls allRepos /\ length calls = 2%nat.
Proof.
  intros c.
  destruct (proj1 readRepositories_pages 2%nat (scenario.resourceOf "acme" c) c
              (scenario.tracked ["alpha"; "beta"])
              (<["alpha" := known 1]> (scenario.tracked ["alpha"; "beta"]))
              (Returned None)
              [Debug "Reading GitHub repositories" [];
               ListByOrgCall "acme" initialOptions;
               ListByOrgCall "acme" (github.setPage initialOptions 2);
               Debug "GitHub repos are read" [("count", IntField 2)];
               Debug "Setting repos to state" [];
               Debug "Finished reading GitHub repositories" []]
              eq_refl)
    as [_ Hsucc].
  - vm_compute. reflexivity.
  - destruct (Hsucc eq_refl) as (calls & allRepos & Hfull & Hevs & _).
    exists calls, allRepos. split; [exact Hfull|].
    apply (f_equal length) in Hevs. simpl in Hevs.
    rewrite length_app in Hevs. simpl in Hevs. lia.
Defined.

(** ** Diagnostics *)

Lemma HasError_app ds1 ds2 :
  diag.HasError (ds1 ++ ds2) = diag.HasError ds1 || diag.HasError ds2.
Proof. unfold diag.HasError. apply existsb_app. Qed.

Lemma HasError_false_not_elem ds d :
  diag.HasError ds = false -> diag.isError d = true -> d ∉ ds.
Proof.
  intros Hds Hd Hin. unfold diag.HasError in Hds.
  assert (existsb diag.isError ds = true) as Habs; [|congruence].
  apply existsb_exists. exists d. split; [by apply list_elem_of_In | done].
Qed.

(** An error is always added to a collection that holds no error yet. *)
Lemma Append_error ds d :
  diag.HasError ds = false -> diag.isError d = true ->
  diag.Append ds [d] = ds ++ [d].
Proof.
  intros Hds Hd. unfold diag.Append, diag.Contains. simpl.
  rewrite bool_decide_eq_false_2; [done|]. by apply HasError_false_not_elem.
Qed.

(** Two distinct errors are both added to a collection that holds no
    error yet. *)
Lemma Append_error_twice ds d1 d2 :
  diag.HasError ds = false ->
  diag.isError d1 = true -> diag.isError d2 = true -> d1 <> d2 ->
  diag.Append (diag.Append ds [d1]) [d2] = ds ++ [d1; d2].
Proof.
  intros Hds Hd1 Hd2 Hne. rewrite (Append_error ds d1 Hds Hd1).
  unfold diag.Append, diag.Contains. simpl.
  rewrite bool_decide_eq_false_2; [by rewrite <- app_assoc|].
  intros Hin. apply elem_of_app in Hin as [Hin|Hin].
  - by apply (HasError_false_not_elem ds d2).
  - apply list_elem_of_singleton in Hin. congruence.
Qed.

(** ** Properties of the provider's Configure *)

Lemma Configure_stops_at_unknown env mk req resp :
  diag.HasError (priorDiagnostics req resp) = false ->
  diag.HasError (provider.checkUnknown (fst (provider.ConfigGet req))
                   (priorDiagnostics req resp)) = true ->
  provider.Configure env mk req resp
  = (provider.withDiagnostics resp
       (provider.checkUnknown (fst (provider.ConfigGet req))
          (priorDiagnostics req resp)), []).
Proof.
  unfold provider.Configure, priorDiagnostics.
  destruct (provider.ConfigGet req) as [config diags]. simpl.
  by intros -> ->.
Qed.

Lemma Configure_stops_at_missing env mk req resp :
  let config := fst (provider.ConfigGet req) in
  diag.HasError (priorDiagnostics req resp) = false ->
  types.IsUnknown (provider.Token config) = false ->
  types.IsUnknown (provider.Owner config) = false ->
  diag.HasError
    (provider.checkMissing (provider.resolveToken env config)
       (provider.resolveOwner env config) (priorDiagnostics req resp)) = true ->
  provider.Configure env mk req resp
  = (provider.withDiagnostics resp
       (provider.checkMissing (provider.resolveToken env config)
          (provider.resolveOwner env config) (priorDiagnostics req resp)), []).
Proof.
  unfold provider.Configure, priorDiagnostics, provider.checkUnknown.
  destruct (provider.ConfigGet req) as [config diags]. simpl.
  intros Hprior -> -> Hmissing. by rewrite Hprior, Hmissing.
Qed.


(** What the two unknown checks add to diagnostics that hold no error. *)
Lemma checkUnknown_adds config prior :
  diag.HasError prior = false ->
  provider.checkUnknown config prior
  = prior
    ++ (if types.IsUnknown (provider.Token config) then [unknownToken] else [])
    ++ (if types.IsUnknown (provider.Owner config) then [unknownOwner] else []).
Proof.
  intros Hprior. unfold provider.checkUnknown, diag.AddAttributeError.
  destruct (types.IsUnknown (provider.Token config)),
           (types.IsUnknown (provider.Owner config)); simpl.
  - by apply Append_error_twice.
  - by apply Append_error.
  - by apply Append_error.
  - by rewrite app_nil_r.
Qed.

(** C6. With no error among the prior diagnostics: when token and owner
    are both unknown, Configure adds exactly the two unknown-value
    diagnostics, one for the attribute token and one for owner, stores no
    client and logs nothing; and when either is unknown it stops there, the
    diagnostics added being unknown-value ones only, whatever the
    environment and the client constructor are. *)
Theorem Configure_unknown_stops env mk req resp :
  let config := fst (provider.ConfigGet req) in
  let prior := priorDiagnostics req resp in
  diag.HasError prior = false ->
  (provider.Token config = types.StringUnknown ->
   provider.Owner config = types.StringUnknown ->
   provider.Configure env mk req resp
   = ({| provider.Diagnostics := prior ++ [unknownToken; unknownOwner];
         provider.DataSourceData := provider.DataSourceData resp;
         provider.ResourceData := provider.ResourceData resp |}, []))
  /\ (provider.Token config = types.StringUnknown
      \/ provider.Owner config = types.StringUnknown ->
      exists added,
        added <> []
        /\ Forall (fun d => d = unknownToken \/ d = unknownOwner) added
        /\ provider.Configure env mk req resp
           = ({| provider.Diagnostics := prior ++ added;
                 provider.DataSourceData := provider.DataSourceData resp;
                 provider.ResourceData := provider.ResourceData resp |}, [])).
Proof.
  intros config prior Hprior.
  pose proof (checkUnknown_adds config prior Hprior) as Hadds.
  assert (types.IsUnknown (provider.Token config) = true
          \/ types.IsUnknown (provider.Owner config) = true ->
          provider.Configure env mk req resp
          = (provider.withDiagnostics resp (provider.checkUnknown config prior), []))
    as Hstop.
  { intros Hsome. apply Configure_stops_at_unknown; [done|].
    fold config prior. rewrite Hadds, !HasError_app, Hprior.
    by destruct Hsome as [-> | ->]; [|rewrite orb_true_r]. }
  split.
  - intros Ht Ho. rewrite Hstop by (left; by rewrite Ht).
    rewrite Hadds, Ht, Ho. reflexivity.
  - intros Hsome.
    exists ((if types.IsUnknown (provider.Token config) then [unknownToken] else [])
            ++ (if types.IsUnknown (provider.Owner config) then [unknownOwner] else [])).
    split; [|split].
    + destruct Hsome as [-> | ->]; simpl; [done|].
      destruct (types.IsUnknown (provider.Token config)); simpl; discriminate.
    + destruct (types.IsUnknown (provider.Token config)),
               (types.IsUnknown (provider.Owner config));
        simpl; rewrite ?Forall_cons, ?Forall_nil; auto.
    + rewrite Hstop by (destruct Hsome as [-> | ->]; auto).
      by rewrite Hadds.
Qed.

Lemma Configure_unknown_stops_witness :
  provider.Configure (<["GITHUB_TOKEN" := "envtoken"]> ∅)
    (scenario.constructs (scenario.serve []))
    (scenario.configured types.StringUnknown types.StringUnknown)
    scenario.freshResponse
  = ({| provider.Diagnostics := [unknownToken; unknownOwner];
        provider.DataSourceData := AnyNil;
        provider.ResourceData := AnyNil |}, []).
Proof.
  apply (proj1 (Configure_unknown_stops (<["GITHUB_TOKEN" := "envtoken"]> ∅)
                  (scenario.constructs (scenario.serve []))
                  (scenario.configured types.StringUnknown types.StringUnknown)
                  scenario.freshResponse eq_refl)); reflexivity.
Defined.

(** C7. With no error among the prior diagnostics, token and owner both
    null and both environment variables empty or unset, Configure adds
    exactly the two missing-value diagnostics, one for token and one for
    owner, stores no client and logs nothing. *)
Theorem Configure_missing_both env mk req resp :
  let config := fst (provider.ConfigGet req) in
  let prior := priorDiagnostics req resp in
  diag.HasError prior = false ->
  provider.Token config = types.StringNull ->
  provider.Owner config = types.StringNull ->
  provider.Getenv env "GITHUB_TOKEN" = "" ->
  provider.Getenv env "GITHUB_OWNER" = "" ->
  provider.Configure env mk req resp
  = ({| provider.Diagnostics := prior ++ [missingToken; missingOwner];
        provider.DataSourceData := provider.DataSourceData resp;
        provider.ResourceData := provider.ResourceData resp |}, []).
Proof.
  intros config prior Hprior Ht Ho Het Heo.
  assert (provider.checkMissing (provider.resolveToken env config)
            (provider.resolveOwner env config) prior
          = prior ++ [missingToken; missingOwner]) as Hmissing.
  { unfold provider.resolveToken, provider.resolveOwner. rewrite Ht, Ho, Het, Heo.
    simpl. unfold provider.checkMissing, diag.AddAttributeError. simpl.
    by apply Append_error_twice. }
  rewrite Configure_stops_at_missing; fold config prior;
    rewrite ?Hmissing, ?Ht, ?Ho; try done.
  rewrite HasError_app. by rewrite orb_true_r.
Qed.

Lemma Configure_missing_both_witness :
  provider.Configure ∅ (scenario.constructs (scenario.serve []))
    (scenario.configured types.StringNull types.StringNull)
    scenario.freshResponse
  = ({| provider.Diagnostics := [missingToken; missingOwner];
        provider.DataSourceData := AnyNil;
        provider.ResourceData := AnyNil |}, []).
Proof.
  apply (Configure_missing_both ∅ (scenario.constructs (scenario.serve []))
           (scenario.configured types.StringNull types.StringNull)
           scenario.freshResponse); reflexivity.
Defined.



(** ** The hand-over from the provider to the resource *)

(** The resource's Configure turns down a bare client: it reports the type
    and leaves the resource as it was. *)
Lemma Configure_rejects_client r c resp :
  all_resource.Configure r {| ProviderData := AnyGithubClient c |} resp
  = (r,
     {| all_resource.Diagnostics :=
          diag.AddError "Unexpected Data Source Configure Type"
            "Expected Config, got: *github.Client. Please report this issue to the provider developers."
            (all_resource.Diagnostics resp) |},
     Returned None).
Proof. reflexivity. Qed.

(** The resource's Configure takes client and owner from a [*Config]. *)
Lemma Configure_accepts_Config r config resp :
  all_resource.Configure r {| ProviderData := AnyConfig (Some config) |} resp
  = ({| owner := Owner config; client := Client config |}, resp, Returned None).
Proof. reflexivity. Qed.

(** C9, at a resolution that succeeds (token cfgtoken, owner acme): the
    provider's Configure stores the bare client as the resource data,
    without the owner, and the resource's Configure, given that value, adds
    the unexpected-type error and takes neither client nor owner. *)
Theorem Configure_handover_is_rejected :
  let c := scenario.serve [] in
  let resp := fst (provider.Configure ∅ (scenario.constructs c)
                     (scenario.configured (types.StringValue "cfgtoken")
                        (types.StringValue "acme"))
                     scenario.freshResponse) in
  provider.Diagnostics resp = []
  /\ provider.ResourceData resp = AnyGithubClient c
  /\ provider.DataSourceData resp = AnyGithubClient c
  /\ all_resource.Configure scenario.unconfigured
       {| ProviderData := provider.ResourceData resp |}
       {| all_resource.Diagnostics := [] |}
     = (scenario.unconfigured,
        {| all_resource.Diagnostics :=
             [ {| diag.Severity_ := diag.SeverityError; diag.Attribute := None;
                  diag.Summary := "Unexpected Data Source Configure Type";
                  diag.Detail :=
                    "Expected Config, got: *github.Client. Please report this issue to the provider developers." |} ] |},
        Returned None).
Proof. repeat split. Qed.

(** ** Further properties of the merge loop *)

Lemma setRepos_app before : forall (m : gmap string allResourceRepoModel) after,
  setRepos m (before ++ after)
  = match setRepos m before with
    | (m1, true) => setRepos m1 after
    | (m1, false) => (m1, false)
    end.
Proof.
  induction before as [|repo before IH]; intros m after; simpl; [done|].
  destruct (setRepo m repo) as [m1|]; [apply IH | done].
Qed.

Lemma mergeable_setRepo (m : gmap string allResourceRepoModel) repo :
  mergeable m repo <-> is_Some (setRepo m repo).
Proof.
  unfold mergeable, setRepo. split.
  - intros (name & -> & Hid).
    destruct (m !! name) as [v|] eqn:Hm; [|eauto].
    destruct Hid as [id ->]; [by apply elem_of_dom|]. eauto.
  - intros [m1 H]. destruct (github.Name repo) as [name|]; [|done].
    exists name. split; [done|]. intros [v Hv]%elem_of_dom. rewrite Hv in H.
    by destruct (github.ID repo); [eauto|].
Qed.

Lemma mergeable_dom (m n : gmap string allResourceRepoModel) repo :
  dom m = dom n -> mergeable m repo -> mergeable n repo.
Proof. unfold mergeable. intros Hdom (name & ? & ?). exists name. by rewrite <- Hdom. Qed.

(** The loop runs to its end exactly on records it gets past one by one. *)
Lemma setRepos_ok_iff allRepos : forall (m : gmap string allResourceRepoModel),
  (exists m', setRepos m allRepos = (m', true)) <-> Forall (mergeable m) allRepos.
Proof.
  induction allRepos as [|repo rest IH]; intros m; simpl.
  - split; [by constructor | eauto].
  - rewrite Forall_cons, mergeable_setRepo.
    destruct (setRepo m repo) as [m1|] eqn:H1.
    + rewrite IH. split.
      * intros Hrest. split; [eauto|].
        eapply Forall_impl; [exact Hrest|]. intros repo'.
        apply mergeable_dom. by eapply setRepo_dom.
      * intros [_ Hrest]. eapply Forall_impl; [exact Hrest|]. intros repo'.
        apply mergeable_dom. symmetry. by eapply setRepo_dom.
    + split; [by intros [m' ?] | by intros [[? ?] _]].
Qed.

Lemma setRepos_stops (m : gmap string allResourceRepoModel) repo rest :
  ~ mergeable m repo -> setRepos m (repo :: rest) = (m, false).
Proof.
  intros Hbad. simpl. destruct (setRepo m repo) as [m1|] eqn:H1; [|done].
  exfalso. apply Hbad, mergeable_setRepo. eauto.
Qed.

Lemma lastNamed_NoDup k allRepos repo :
  NoDup (github.Name <$> allRepos) ->
  repo ∈ allRepos -> github.Name repo = Some k ->
  lastNamed k allRepos = Some repo.
Proof.
  induction allRepos as [|r rest IH]; simpl; intros Hnd Hin Hname.
  - by apply elem_of_nil in Hin.
  - apply NoDup_cons in Hnd as [Hr Hnd].
    apply elem_of_cons in Hin as [->|Hin].
    + assert (lastNamed k rest = None) as ->.
      { apply lastNamed_None. intros r' Hin' Hname'. apply Hr.
        rewrite Hname, <- Hname'. by apply list_elem_of_fmap_2. }
      by rewrite bool_decide_eq_true_2.
    + by rewrite (IH Hnd Hin Hname).
Qed.

Lemma lastNamed_Permutation k (l1 l2 : list github.Repository) :
  NoDup (github.Name <$> l1) -> l1 ≡ₚ l2 ->
  lastNamed k l1 = lastNamed k l2.
Proof.
  intros Hnd Hperm.
  assert (NoDup (github.Name <$> l2)) as Hnd2 by (by rewrite <- Hperm).
  destruct (lastNamed k l1) as [repo|] eqn:H1.
  - apply lastNamed_Some in H1 as [Hin Hname]. symmetry.
    apply lastNamed_NoDup; [done | by rewrite <- Hperm | done].
  - symmetry. apply lastNamed_None. intros repo Hin.
    rewrite <- Hperm in Hin. revert repo Hin. by apply lastNamed_None.
Qed.

(** With distinct names, the order of the records does not matter to a
    merge that runs to its end. *)
Lemma setRepos_Permutation (m m' : gmap string allResourceRepoModel) l1 l2 :
  NoDup (github.Name <$> l1) -> l1 ≡ₚ l2 ->
  setRepos m l1 = (m', true) -> setRepos m l2 = (m', true).
Proof.
  intros Hnd Hperm H1.
  destruct (proj2 (setRepos_ok_iff l2 m)) as [m2 H2].
  { rewrite <- Hperm. apply setRepos_ok_iff. eauto. }
  rewrite H2. f_equal. apply map_eq. intros k.
  rewrite (setRepos_lookup _ _ _ k H2), (setRepos_lookup _ _ _ k H1).
  by rewrite (lastNamed_Permutation k l1 l2).
Qed.

(** ** Further properties of readRepositories *)

Lemma readRepositories_on_listing fuel r c (m : gmap string allResourceRepoModel)
    calls allRepos :
  client r = Some c ->
  fullListing c (owner r) initialOptions calls allRepos ->
  (length calls <= fuel)%nat ->
  exists evs,
    readRepositories fuel r m
    = Some (match setRepos m allRepos with
            | (m', true) => (m', Returned None,
                             evs ++ [Debug "Finished reading GitHub repositories" []])
            | (m', false) => (m', Panicked, evs)
            end).
Proof.
  intros Hc Hfull Hfuel. unfold readRepositories. rewrite Hc.
  rewrite (fullListing_listAll _ _ _ _ _ Hfull fuel [] Hfuel). simpl.
  exists (Debug "Reading GitHub repositories" []
          :: calls
          ++ [Debug "GitHub repos are read"
                    [("count", IntField (Z.of_nat (length allRepos)))];
              Debug "Setting repos to state" []]).
  destruct (setRepos m allRepos) as [m' [|]]; reflexivity.
Qed.

(** X1. However readRepositories ends (without error, with a fetch error or
    in a panic), the state map has the keys it had before. *)
Theorem readRepositories_keeps_keys_in_every_outcome fuel r
    (m m' : gmap string allResourceRepoModel) out evs :
  readRepositories fuel r m = Some (m', out, evs) ->
  dom m' = dom m.
Proof.
  unfold readRepositories. intros Hrun.
  destruct (client r) as [c|]; [|by injection Hrun as <- _ _].
  destruct (listAll fuel c (owner r) initialOptions [])
    as [[[err|allRepos] calls]|]; [by injection Hrun as <- _ _| |done].
  destruct (setRepos m allRepos) as [m1 ok] eqn:Hset.
  apply setRepos_dom in Hset.
  by destruct ok; injection Hrun as <- _ _.
Qed.

(** A run that panics at a record without a name, after alpha was merged. *)
Lemma readRepositories_keeps_keys_in_every_outcome_witness :
  dom (<["alpha" := known 1]> (scenario.tracked ["alpha"; "beta"]))
  = dom (scenario.tracked ["alpha"; "beta"]).
Proof.
  eapply (readRepositories_keeps_keys_in_every_outcome 1
            (scenario.resourceOf "acme"
               (scenario.scripted
                  [inl ([scenario.repo "alpha" 1;
                         {| github.ID := Some 2; github.Name := None |}],
                        {| github.NextPage := 0 |})]))
            _ _ Panicked).
  vm_compute. reflexivity.
Defined.

(** X2. On a listing that is fetched in full, readRepositories returns
    without error exactly when every record has a name and every record
    whose name is a key of the state map has an identifier; otherwise it
    panics. A record without identifier is harmless as long as its name is
    not tracked. *)
Theorem readRepositories_returns_iff_mergeable fuel r c
    (m : gmap string allResourceRepoModel) calls allRepos :
  client r = Some c ->
  fullListing c (owner r) initialOptions calls allRepos ->
  (length calls <= fuel)%nat ->
  ((exists m' evs, readRepositories fuel r m = Some (m', Returned None, evs))
   <-> Forall (mergeable m) allRepos)
  /\ (~ Forall (mergeable m) allRepos ->
      exists m' evs, readRepositories fuel r m = Some (m', Panicked, evs)).
Proof.
  intros Hc Hfull Hfuel.
  destruct (readRepositories_on_listing fuel r c m calls allRepos Hc Hfull Hfuel)
    as [evs Hrun].
  rewrite <- setRepos_ok_iff.
  destruct (setRepos m allRepos) as [m1 [|]]; rewrite Hrun.
  - split; [split; eauto|]. intros Hno. destruct Hno. eauto.
  - split; [|eauto]. split.
    + by intros (m' & evs' & ?).
    + by intros (m' & ?).
Qed.

(** gamma has no identifier and is not tracked: the run returns. *)
Lemma readRepositories_returns_iff_mergeable_witness :
  let page := [scenario.repo "alpha" 1;
               {| github.ID := None; github.Name := Some "gamma" |}] in
  let r := scenario.resourceOf "acme"
             (scenario.scripted [inl (page, {| github.NextPage := 0 |})]) in
  let m := scenario.tracked ["alpha"; "beta"] in
  ((exists m' evs, readRepositories 1 r m = Some (m', Returned None, evs))
   <-> Forall (mergeable m) page)
  /\ (~ Forall (mergeable m) page ->
      exists m' evs, readRepositories 1 r m = Some (m', Panicked, evs)).
Proof.
  intros page r m.
  apply (readRepositories_returns_iff_mergeable 1 r
           (scenario.scripted [inl (page, {| github.NextPage := 0 |})]) m
           [ListByOrgCall "acme" initialOptions] page eq_refl).
  - eapply fullListing_last; reflexivity.
  - simpl. lia.
Defined.

(** X3. When the merge loop panics at a record, the records before it have
    been merged and those after it have not: the map the caller holds is
    the one the records before the bad one give. *)
Theorem readRepositories_panic_leaves_partial_merge fuel r c
    (m : gmap string allResourceRepoModel) calls before bad after :
  client r = Some c ->
  fullListing c (owner r) initialOptions calls (before ++ bad :: after) ->
  (length calls <= fuel)%nat ->
  Forall (mergeable m) before ->
  ~ mergeable m bad ->
  exists m1 evs,
    readRepositories fuel r m = Some (m1, Panicked, evs)
    /\ forall k,
         m1 !! k =
           match m !! k with
           | None => None
           | Some v =>
               match lastNamed k before with
               | None => Some v
               | Some repo => known <$> github.ID repo
               end
           end.
Proof.
  intros Hc Hfull Hfuel Hbefore Hbad.
  destruct (readRepositories_on_listing fuel r c m calls _ Hc Hfull Hfuel)
    as [evs Hrun].
  apply setRepos_ok_iff in Hbefore as [m1 Hset].
  rewrite setRepos_app, Hset, setRepos_stops in Hrun.
  - exists m1, evs. split; [done|]. intros k. by apply setRepos_lookup.
  - intros Hm1. apply Hbad. revert Hm1. apply mergeable_dom.
    by eapply setRepos_dom.
Qed.

Lemma readRepositories_panic_leaves_partial_merge_witness :
  let nameless := {| github.ID := Some 9; github.Name := None |} in
  let r := scenario.resourceOf "acme"
             (scenario.scripted
                [inl ([scenario.repo "alpha" 1; nameless; scenario.repo "beta" 2],
                      {| github.NextPage := 0 |})]) in
  let m := scenario.tracked ["alpha"; "beta"] in
  exists m1 evs,
    readRepositories 1 r m = Some (m1, Panicked, evs)
    /\ forall k,
         m1 !! k =
           match m !! k with
           | None => None
           | Some v =>
               match lastNamed k [scenario.repo "alpha" 1] with
               | None => Some v
               | Some repo => known <$> github.ID repo
               end
           end.
Proof.
  intros nameless r m.
  apply (readRepositories_panic_leaves_partial_merge 1 r
           (scenario.scripted
              [inl ([scenario.repo "alpha" 1; nameless; scenario.repo "beta" 2],
                    {| github.NextPage := 0 |})])
           m [ListByOrgCall "acme" initialOptions]
           [scenario.repo "alpha" 1] nameless [scenario.repo "beta" 2] eq_refl).
  - eapply fullListing_last; reflexivity.
  - simpl. lia.
  - repeat constructor. exists "alpha". split; [done|]. by eexists.
  - by intros (name & Hname & _).
Defined.

Lemma listAll_alwaysMore c org fuel : forall opt acc,
  alwaysMore c org -> listAll fuel c org opt acc = None.
Proof.
  induction fuel as [|fuel IH]; intros opt acc Hmore; simpl; [done|].
  destruct (Hmore opt) as (repos & gresp & -> & Hnext).
  apply Z.eqb_neq in Hnext. rewrite Hnext. by rewrite IH.
Qed.

(** X4. The paging loop has no bound of its own: against a remote that
    announces a next page with every answer, readRepositories does not
    return, whatever the fuel. *)
Theorem readRepositories_never_returns_on_endless_pages fuel r c
    (m : gmap string allResourceRepoModel) :
  client r = Some c ->
  alwaysMore c (owner r) ->
  readRepositories fuel r m = None.
Proof.
  intros Hc Hmore. unfold readRepositories.
  by rewrite Hc, listAll_alwaysMore.
Qed.

Lemma readRepositories_never_returns_on_endless_pages_witness :
  readRepositories 1000 (scenario.resourceOf "acme" scenario.endless)
    (scenario.tracked ["alpha"])
  = None.
Proof.
  apply (readRepositories_never_returns_on_endless_pages 1000
           (scenario.resourceOf "acme" scenario.endless) scenario.endless).
  - reflexivity.
  - intros opt. by exists [], {| github.NextPage := 2 |}.
Defined.

Lemma listAll_fails_calls c org n : forall fuel opt acc optn err,
  requestAt n c org opt = Some optn ->
  github.ListByOrg c org optn = inr err ->
  (n < fuel)%nat ->
  exists calls,
    listAll fuel c org opt acc = Some (inl err, calls)
    /\ length calls = S n
    /\ last calls = Some (ListByOrgCall org optn)
    /\ remoteCalls calls = calls.
Proof.
  induction n as [|n IH]; intros fuel opt acc optn err Hat Herr Hfuel;
    (destruct fuel as [|fuel]; [lia|]); simpl in *.
  - injection Hat as ->. rewrite Herr. by eexists.
  - destruct (github.ListByOrg c org opt) as [[repos gresp]|err']; [|done].
    destruct (github.NextPage gresp =? 0); [done|].
    destruct (IH fuel _ (acc ++ repos) _ _ Hat Herr)
      as (calls & -> & Hlen & Hlast & Hcalls); [lia|].
    eexists. split; [done|]. simpl. rewrite Hlen.
    split; [done|]. split.
    + destruct calls; [done|]. done.
    + unfold remoteCalls in *. simpl. by rewrite Hcalls.
Qed.

(** X5. A failed page fetch is not retried and ends the run: when call
    number [n] fails, readRepositories has logged its first entry and made
    [n + 1] remote calls, the failing one last, and nothing after it. *)
Theorem readRepositories_fetch_error_is_last_call fuel r c
    (m : gmap string allResourceRepoModel) n opt err :
  client r = Some c ->
  requestAt n c (owner r) initialOptions = Some opt ->
  github.ListByOrg c (owner r) opt = inr err ->
  (n < fuel)%nat ->
  exists calls,
    readRepositories fuel r m
    = Some (m, Returned (Some err),
            Debug "Reading GitHub repositories" [] :: calls)
    /\ length calls = S n
    /\ last calls = Some (ListByOrgCall (owner r) opt)
    /\ remoteCalls calls = calls.
Proof.
  intros Hc Hat Herr Hfuel. unfold readRepositories. rewrite Hc.
  destruct (listAll_fails_calls c (owner r) n fuel initialOptions [] opt err)
    as (calls & -> & Hrest); eauto.
Qed.


Lemma readRepositories_fetch_error_is_last_call_witness :
  let r := scenario.resourceOf "acme"
             (scenario.scripted
                [inl ([scenario.repo "alpha" 1], {| github.NextPage := 2 |});
                 inr "502 Bad Gateway";
                 inl ([scenario.repo "beta" 2], {| github.NextPage := 0 |})]) in
  exists calls,
    readRepositories 5 r (scenario.tracked ["alpha"; "beta"])
    = Some (scenario.tracked ["alpha"; "beta"],
            Returned (Some "502 Bad Gateway"),
            Debug "Reading GitHub repositories" [] :: calls)
    /\ length calls = 2%nat
    /\ last calls = Some (ListByOrgCall "acme" (github.setPage initialOptions 2))
    /\ remoteCalls calls = calls.
Proof.
  intros r.
  eapply (readRepositories_fetch_error_is_last_call 5 r _ _ 1
            (github.setPage initialOptions 2) "502 Bad Gateway");
    [reflexivity | reflexivity | reflexivity | lia].
Defined.

(** X6. When the names of the listing are distinct, the order in which the
    remote serves the records, and how it cuts them into pages, does not
    matter: two remotes whose full listings are permutations of each other
    leave the same map. *)
Theorem readRepositories_order_of_listing_irrelevant fuel r1 r2 c1 c2
    (m m' : gmap string allResourceRepoModel) calls1 calls2 l1 l2 evs1 :
  client r1 = Some c1 ->
  client r2 = Some c2 ->
  fullListing c1 (owner r1) initialOptions calls1 l1 ->
  fullListing c2 (owner r2) initialOptions calls2 l2 ->
  l1 ≡ₚ l2 ->
  NoDup (github.Name <$> l1) ->
  (length calls2 <= fuel)%nat ->
  readRepositories fuel r1 m = Some (m', Returned None, evs1) ->
  exists evs2, readRepositories fuel r2 m = Some (m', Returned None, evs2).
Proof.
  intros Hc1 Hc2 Hfull1 Hfull2 Hperm Hnd Hfuel Hrun.
  apply readRepositories_success in Hrun
    as (c & allRepos & calls & Hc & Hlist & Hset & _).
  rewrite Hc1 in Hc. injection Hc as <-.
  apply listAll_fullListing in Hlist as (pages & -> & Hpages). simpl in Hset.
  destruct (fullListing_unique _ _ _ _ _ Hfull1 _ _ Hpages) as [_ <-].
  apply (setRepos_Permutation m m' l1 l2 Hnd Hperm) in Hset.
  destruct (readRepositories_on_listing fuel r2 c2 m calls2 l2 Hc2 Hfull2 Hfuel)
    as [evs Hrun2].
  rewrite Hset in Hrun2. eauto.
Qed.

(** One remote serves alpha and beta on one page, the other beta and then
    alpha on two. *)
Lemma readRepositories_order_of_listing_irrelevant_witness :
  exists evs2,
    readRepositories 2
      (scenario.resourceOf "acme"
         (scenario.scripted
            [inl ([scenario.repo "beta" 2], {| github.NextPage := 2 |});
             inl ([scenario.repo "alpha" 1], {| github.NextPage := 0 |})]))
      (scenario.tracked ["alpha"; "beta"])
    = Some (<["alpha" := known 1]> (<["beta" := known 2]>
              (scenario.tracked ["alpha"; "beta"])),
            Returned None, evs2).
Proof.
  eapply (readRepositories_order_of_listing_irrelevant 2
            (scenario.resourceOf "acme"
               (scenario.scripted
                  [inl ([scenario.repo "alpha" 1; scenario.repo "beta" 2],
                        {| github.NextPage := 0 |})]))
            _ _ _ (scenario.tracked ["alpha"; "beta"]) _
            [ListByOrgCall "acme" initialOptions]
            [ListByOrgCall "acme" initialOptions;
             ListByOrgCall "acme" (github.setPage initialOptions 2)]
            [scenario.repo "alpha" 1; scenario.repo "beta" 2]
            ([scenario.repo "beta" 2] ++ [scenario.repo "alpha" 1])).
  - reflexivity.
  - reflexivity.
  - eapply fullListing_last; reflexivity.
  - eapply fullListing_next; [reflexivity | done |].
    eapply fullListing_last; reflexivity.
  - apply Permutation_swap.
  - simpl. apply NoDup_cons. split; [|apply NoDup_singleton].
    intros Hin. by apply list_elem_of_singleton in Hin.
  - simpl. lia.
  - vm_compute. reflexivity.
Defined.

(** ** Further properties of diagnostics *)

Lemma Append_extends new : forall ds, exists added, diag.Append ds new = ds ++ added.
Proof.
  unfold diag.Append.
  induction new as [|d new IH]; intros ds; simpl.
  - exists []. by rewrite app_nil_r.
  - destruct (diag.Contains ds d); [apply IH|].
    destruct (IH (ds ++ [d])) as [added ->].
    exists (d :: added). by rewrite <- app_assoc.
Qed.

Lemma HasError_Append_keeps ds new :
  diag.HasError ds = true -> diag.HasError (diag.Append ds new) = true.
Proof.
  intros Hds. destruct (Append_extends new ds) as [added ->].
  by rewrite HasError_app, Hds.
Qed.

Lemma HasError_Append_error ds d :
  diag.isError d = true -> diag.HasError (diag.Append ds [d]) = true.
Proof.
  intros Hd. destruct (diag.HasError ds) eqn:Hds.
  - by apply HasError_Append_keeps.
  - rewrite Append_error by done. unfold diag.HasError.
    rewrite existsb_app. simpl. rewrite Hd. by rewrite orb_true_r.
Qed.

(** What the two emptiness checks add to diagnostics that hold no error. *)
Lemma checkMissing_adds token owner prior :
  diag.HasError prior = false ->
  provider.checkMissing token owner prior
  = prior
    ++ (if String.eqb token "" then [missingToken] else [])
    ++ (if String.eqb owner "" then [missingOwner] else []).
Proof.
  intros Hprior. unfold provider.checkMissing, diag.AddAttributeError.
  destruct (String.eqb token ""), (String.eqb owner ""); simpl.
  - by apply Append_error_twice.
  - by apply Append_error.
  - by apply Append_error.
  - by rewrite app_nil_r.
Qed.

Lemma checkMissing_no_error token owner prior :
  diag.HasError (provider.checkMissing token owner prior) = false ->
  token <> "" /\ owner <> "".
Proof.
  unfold provider.checkMissing, diag.AddAttributeError. intros Hno.
  destruct (String.eqb owner "") eqn:Ho.
  { by rewrite HasError_Append_error in Hno. }
  destruct (String.eqb token "") eqn:Ht.
  { by rewrite HasError_Append_error in Hno. }
  by apply String.eqb_neq in Ho, Ht.
Qed.

(** ** Further properties of the provider's Configure *)

(** X7. Configure ends in one of two ways, never in between: with an error
    among the diagnostics, the two data fields as they were and no
    completion entry logged; or without error, token and owner resolved to
    non-empty strings, and the constructed client stored in both data
    fields. *)
Theorem Configure_client_or_error env mk req resp :
  let config := fst (provider.ConfigGet req) in
  let resp' := fst (provider.Configure env mk req resp) in
  let evs := snd (provider.Configure env mk req resp) in
  (diag.HasError (provider.Diagnostics resp') = true
   /\ provider.DataSourceData resp' = provider.DataSourceData resp
   /\ provider.ResourceData resp' = provider.ResourceData resp
   /\ Info "Configured GitHub client" [("success", BoolField true)] ∉ evs)
  \/ (diag.HasError (provider.Diagnostics resp') = false
      /\ provider.resolveToken env config <> ""
      /\ provider.resolveOwner env config <> ""
      /\ exists c, mk "https://api.github.com/" "" = inl c
                   /\ provider.DataSourceData resp' = AnyGithubClient c
                   /\ provider.ResourceData resp' = AnyGithubClient c).
Proof.
  unfold provider.Configure. destruct (provider.ConfigGet req) as [config diags].
  simpl.
  destruct (diag.HasError (diag.Append _ diags)) eqn:H1; simpl.
  { left. repeat split; [done | apply not_elem_of_nil]. }
  destruct (diag.HasError (provider.checkUnknown _ _)) eqn:H2; simpl.
  { left. repeat split; [done | apply not_elem_of_nil]. }
  destruct (diag.HasError (provider.checkMissing _ _ _)) eqn:H3; simpl.
  { left. repeat split; [done | apply not_elem_of_nil]. }
  destruct (checkMissing_no_error _ _ _ H3) as [Ht Ho].
  destruct (mk _ _) as [c|err]; simpl.
  - right. repeat split; try done. by exists c.
  - left. split; [by apply HasError_Append_error|]. repeat split.
    intros Hin. repeat (apply elem_of_cons in Hin as [Hin|Hin]; [done|]).
    by apply elem_of_nil in Hin.
Qed.


(** X8. Configure only adds diagnostics: those the response held when it
    was called are still there, first and in order, whatever happens. *)
Theorem Configure_keeps_diagnostics env mk req resp :
  exists added,
    provider.Diagnostics (fst (provider.Configure env mk req resp))
    = provider.Diagnostics resp ++ added.
Proof.
  set (ext := fun ds : diag.Diagnostics =>
                exists added, ds = provider.Diagnostics resp ++ added).
  assert (forall ds more, ext ds -> ext (diag.Append ds more)) as Hstep.
  { intros ds more [added ->].
    destruct (Append_extends more (provider.Diagnostics resp ++ added))
      as [added' ->].
    exists (added ++ added'). by rewrite app_assoc. }
  assert (ext (provider.Diagnostics resp)) as Hbase
    by (exists []; by rewrite app_nil_r).
  assert (forall config ds, ext ds -> ext (provider.checkUnknown config ds))
    as Hunknown.
  { intros config ds Hds. unfold provider.checkUnknown, diag.AddAttributeError.
    destruct (types.IsUnknown (provider.Token config)),
             (types.IsUnknown (provider.Owner config));
      repeat apply Hstep; exact Hds. }
  assert (forall token owner ds, ext ds -> ext (provider.checkMissing token owner ds))
    as Hmissing.
  { intros token owner ds Hds. unfold provider.checkMissing, diag.AddAttributeError.
    destruct (String.eqb token ""), (String.eqb owner "");
      repeat apply Hstep; exact Hds. }
  change (ext (provider.Diagnostics (fst (provider.Configure env mk req resp)))).
  unfold provider.Configure. destruct (provider.ConfigGet req) as [config diags].
  destruct (diag.HasError (diag.Append _ diags)); simpl; [by apply Hstep|].
  destruct (diag.HasError (provider.checkUnknown _ _)); simpl;
    [by apply Hunknown, Hstep|].
  destruct (diag.HasError (provider.checkMissing _ _ _)); simpl;
    [by apply Hmissing, Hunknown, Hstep|].
  destruct (mk _ _) as [c|err]; simpl.
  - by apply Hmissing, Hunknown, Hstep.
  - unfold diag.AddError. by apply Hstep, Hmissing, Hunknown, Hstep.
Qed.

(** X9. The two emptiness checks are independent: with known or null
    values and no earlier error, when the resolved token or the resolved
    owner is empty Configure adds the missing-value diagnostic of each one
    that is empty and of no other, stores no client and logs nothing. *)
Theorem Configure_missing_each env mk req resp :
  let config := fst (provider.ConfigGet req) in
  let prior := priorDiagnostics req resp in
  let token := provider.resolveToken env config in
  let owner := provider.resolveOwner env config in
  diag.HasError prior = false ->
  types.IsUnknown (provider.Token config) = false ->
  types.IsUnknown (provider.Owner config) = false ->
  token = "" \/ owner = "" ->
  provider.Configure env mk req resp
  = ({| provider.Diagnostics :=
          prior
          ++ (if String.eqb token "" then [missingToken] else [])
          ++ (if String.eqb owner "" then [missingOwner] else []);
        provider.DataSourceData := provider.DataSourceData resp;
        provider.ResourceData := provider.ResourceData resp |}, []).
Proof.
  intros config prior token owner Hprior Hut Huo Hempty.
  rewrite Configure_stops_at_missing; fold config prior token owner;
    rewrite ?checkMissing_adds by done; try done.
  rewrite !HasError_app, Hprior. simpl.
  destruct Hempty as [-> | ->]; simpl; [done|].
  by destruct (String.eqb token "").
Qed.


(** The owner comes from the environment, the token from nowhere. *)
Lemma Configure_missing_each_witness :
  provider.Configure (<["GITHUB_OWNER" := "acme"]> ∅)
    (scenario.constructs (scenario.serve []))
    (scenario.configured types.StringNull types.StringNull)
    scenario.freshResponse
  = ({| provider.Diagnostics := [missingToken];
        provider.DataSourceData := AnyNil;
        provider.ResourceData := AnyNil |}, []).
Proof.
  etransitivity.
  - apply (Configure_missing_each (<["GITHUB_OWNER" := "acme"]> ∅)
             (scenario.constructs (scenario.serve []))
             (scenario.configured types.StringNull types.StringNull)
             scenario.freshResponse); try reflexivity.
    by left.
  - vm_compute. reflexivity.
Defined.

(** X10. A token set to the empty string in the configuration is not
    replaced by the environment's: whatever GITHUB_TOKEN holds, Configure
    reports the token as missing and stores no client. *)
Theorem Configure_empty_token_hides_environment env mk req resp :
  let config := fst (provider.ConfigGet req) in
  diag.HasError (priorDiagnostics req resp) = false ->
  provider.Token config = types.StringValue "" ->
  types.IsUnknown (provider.Owner config) = false ->
  missingToken ∈ provider.Diagnostics (fst (provider.Configure env mk req resp))
  /\ provider.ResourceData (fst (provider.Configure env mk req resp))
     = provider.ResourceData resp
  /\ snd (provider.Configure env mk req resp) = [].
Proof.
  intros config Hprior Ht Huo.
  assert (provider.resolveToken env config = "") as Hempty
    by (unfold provider.resolveToken; by rewrite Ht).
  rewrite Configure_stops_at_missing; fold config;
    rewrite ?checkMissing_adds, ?Hempty, ?Ht by done; try done.
  - simpl. repeat split. apply elem_of_app. right. by left.
  - rewrite !HasError_app, Hprior. done.
Qed.

Lemma Configure_empty_token_hides_environment_witness :
  let run := provider.Configure
               (<["GITHUB_TOKEN" := "envtoken"]> (<["GITHUB_OWNER" := "acme"]> ∅))
               (scenario.constructs (scenario.serve []))
               (scenario.configured (types.StringValue "") types.StringNull)
               scenario.freshResponse in
  missingToken ∈ provider.Diagnostics (fst run)
  /\ provider.ResourceData (fst run) = AnyNil
  /\ snd run = [].
Proof.
  apply (Configure_empty_token_hides_environment
           (<["GITHUB_TOKEN" := "envtoken"]> (<["GITHUB_OWNER" := "acme"]> ∅))
           (scenario.constructs (scenario.serve []))
           (scenario.configured (types.StringValue "") types.StringNull)
           scenario.freshResponse); reflexivity.
Defined.

(** A run of Configure that ends without error has stored the client the
    constructor gave. *)
Lemma Configure_without_error env mk req resp :
  diag.HasError (provider.Diagnostics (fst (provider.Configure env mk req resp)))
  = false ->
  exists c, mk "https://api.github.com/" "" = inl c
            /\ provider.DataSourceData (fst (provider.Configure env mk req resp))
               = AnyGithubClient c
            /\ provider.ResourceData (fst (provider.Configure env mk req resp))
               = AnyGithubClient c.
Proof.
  unfold provider.Configure. destruct (provider.ConfigGet req) as [config diags].
  destruct (diag.HasError (diag.Append _ diags)) eqn:H1; simpl; [congruence|].
  destruct (diag.HasError (provider.checkUnknown _ _)) eqn:H2; simpl; [congruence|].
  destruct (diag.HasError (provider.checkMissing _ _ _)) eqn:H3; simpl; [congruence|].
  destruct (mk _ _) as [c|err]; simpl; [eauto|].
  unfold diag.AddError. intros Hno. by rewrite HasError_Append_error in Hno.
Qed.

(** X11. The client Configure hands on does not depend on the token, the
    owner or the environment: two runs with the same constructor that both
    end without error store the same client. The token reaches the log
    context only. *)
Theorem Configure_client_independent_of_token env1 env2 mk req1 req2 resp1 resp2 :
  let resp1' := fst (provider.Configure env1 mk req1 resp1) in
  let resp2' := fst (provider.Configure env2 mk req2 resp2) in
  diag.HasError (provider.Diagnostics resp1') = false ->
  diag.HasError (provider.Diagnostics resp2') = false ->
  provider.ResourceData resp1' = provider.ResourceData resp2'
  /\ provider.DataSourceData resp1' = provider.DataSourceData resp2'.
Proof.
  intros resp1' resp2' H1 H2.
  destruct (Configure_without_error env1 mk req1 resp1 H1) as (c1 & Hmk1 & Hd1 & Hr1).
  destruct (Configure_without_error env2 mk req2 resp2 H2) as (c2 & Hmk2 & Hd2 & Hr2).
  rewrite Hmk1 in Hmk2. injection Hmk2 as <-.
  subst resp1' resp2'. by rewrite Hd1, Hr1, Hd2, Hr2.
Qed.

Lemma Configure_client_independent_of_token_witness :
  let mk := scenario.constructs (scenario.serve []) in
  let resp1 := fst (provider.Configure ∅ mk
                      (scenario.configured (types.StringValue "token-one")
                         (types.StringValue "acme"))
                      scenario.freshResponse) in
  let resp2 := fst (provider.Configure
                      (<["GITHUB_TOKEN" := "token-two"]>
                         (<["GITHUB_OWNER" := "other"]> ∅)) mk
                      (scenario.configured types.StringNull types.StringNull)
                      scenario.freshResponse) in
  provider.ResourceData resp1 = provider.ResourceData resp2
  /\ provider.DataSourceData resp1 = provider.DataSourceData resp2.
Proof.
  apply (Configure_client_independent_of_token ∅
           (<["GITHUB_TOKEN" := "token-two"]> (<["GITHUB_OWNER" := "other"]> ∅))
           (scenario.constructs (scenario.serve []))
           (scenario.configured (types.StringValue "token-one")
              (types.StringValue "acme"))
           (scenario.configured types.StringNull types.StringNull)
           scenario.freshResponse scenario.freshResponse); reflexivity.
Defined.

(** X12. When validation passes and the client constructor fails, Configure
    adds one error that is scoped to no attribute and carries the
    constructor's message, stores no client, and has logged the start of
    the construction but not its completion. *)
Theorem Configure_constructor_failure env mk req resp err :
  let config := fst (provider.ConfigGet req) in
  let prior := priorDiagnostics req resp in
  diag.HasError prior = false ->
  types.IsUnknown (provider.Token config) = false ->
  types.IsUnknown (provider.Owner config) = false ->
  provider.resolveToken env config <> "" ->
  provider.resolveOwner env config <> "" ->
  mk "https://api.github.com/" "" = inr err ->
  exists detail,
    provider.Configure env mk req resp
    = ({| provider.Diagnostics :=
            prior ++ [ {| diag.Severity_ := diag.SeverityError;
                          diag.Attribute := None;
                          diag.Summary := "Unable to Create GitHub API Client";
                          diag.Detail := detail +:+ err |} ];
          provider.DataSourceData := provider.DataSourceData resp;
          provider.ResourceData := provider.ResourceData resp |},
       [SetField "github_token" (provider.resolveToken env config);
        SetField "github_owner" (provider.resolveOwner env config);
        MaskFieldValuesWithFieldKeys "github_token";
        Debug "Creating GitHub client" []]).
Proof.
  intros config prior Hprior Hut Huo Htoken Howner Hmk.
  unfold provider.Configure, provider.checkUnknown, provider.checkMissing.
  subst config prior. unfold priorDiagnostics in *.
  destruct (provider.ConfigGet req) as [config diags]. simpl in *.
  apply String.eqb_neq in Htoken, Howner.
  rewrite Hprior, Hut, Huo, Htoken, Howner, Hprior, Hmk. simpl.
  unfold diag.AddError. rewrite Append_error by done.
  exists ("An unexpected error occurred when creating the GitHub API client. "
          +:+ "If the error is not clear, please contact the provider developers."
          +:+ String (Ascii.ascii_of_nat 10) (String (Ascii.ascii_of_nat 10) "")
          +:+ "GitHub Client Error: ").
  reflexivity.
Qed.

Lemma Configure_constructor_failure_witness :
  exists detail,
    provider.Configure ∅ (fun _ _ => inr "parse error")
      (scenario.configured (types.StringValue "cfgtoken") (types.StringValue "acme"))
      scenario.freshResponse
    = ({| provider.Diagnostics :=
            [ {| diag.Severity_ := diag.SeverityError;
                 diag.Attribute := None;
                 diag.Summary := "Unable to Create GitHub API Client";
                 diag.Detail := detail +:+ "parse error" |} ];
          provider.DataSourceData := AnyNil;
          provider.ResourceData := AnyNil |},
       [SetField "github_token" "cfgtoken";
        SetField "github_owner" "acme";
        MaskFieldValuesWithFieldKeys "github_token";
        Debug "Creating GitHub client" []]).
Proof.
  apply (Configure_constructor_failure ∅ (fun _ _ => inr "parse error")
           (scenario.configured (types.StringValue "cfgtoken")
              (types.StringValue "acme"))
           scenario.freshResponse "parse error"); done.
Defined.

(** X13. Configure writes no log entry before it has asked for the token
    field to be masked: every Debug or Info entry of a run comes after the
    masking of github_token. *)
Theorem Configure_masks_token_before_logging env mk req resp before ev after :
  snd (provider.Configure env mk req resp) = before ++ ev :: after ->
  isLogEntry ev = true ->
  MaskFieldValuesWithFieldKeys "github_token" ∈ before.
Proof.
  unfold provider.Configure. destruct (provider.ConfigGet req) as [config diags].
  destruct (diag.HasError (diag.Append _ diags)); simpl;
    [by destruct before|].
  destruct (diag.HasError (provider.checkUnknown _ _)); simpl;
    [by destruct before|].
  destruct (diag.HasError (provider.checkMissing _ _ _)); simpl;
    [by destruct before|].
  destruct (mk _ _) as [c|err]; simpl; intros Hevs Hlog;
    repeat (destruct before as [|? before];
            [injection Hevs as <- _; try discriminate Hlog; set_solver
            |injection Hevs as <- Hevs]);
    try (by destruct before); set_solver.
Qed.

Lemma Configure_masks_token_before_logging_witness :
  MaskFieldValuesWithFieldKeys "github_token"
  ∈ [SetField "github_token" "cfgtoken"; SetField "github_owner" "acme";
     MaskFieldValuesWithFieldKeys "github_token"].
Proof.
  apply (Configure_masks_token_before_logging ∅
           (scenario.constructs (scenario.serve []))
           (scenario.configured (types.StringValue "cfgtoken")
              (types.StringValue "acme"))
           scenario.freshResponse _
           (Debug "Creating GitHub client" [])
           [Info "Configured GitHub client" [("success", BoolField true)]]);
    reflexivity.
Defined.

(** ** Properties of the resource's Configure *)

(** X14. The resource's Configure takes client and owner together or not at
    all: either the receiver is as it was, or the provider data is a
    non-nil Config, the receiver holds exactly its client and its owner and
    no diagnostic was added. Provider data of any other type is answered
    with an error. *)
Theorem Configure_takes_both_or_nothing r req resp :
  let r' := fst (fst (all_resource.Configure r req resp)) in
  let resp' := snd (fst (all_resource.Configure r req resp)) in
  (r' = r
   \/ exists config,
        ProviderData req = AnyConfig (Some config)
        /\ client r' = Client config /\ owner r' = Owner config
        /\ resp' = resp)
  /\ ((forall cfg, ProviderData req <> AnyConfig cfg) ->
      ProviderData req <> AnyNil ->
      diag.HasError (all_resource.Diagnostics resp') = true).
Proof.
  unfold all_resource.Configure.
  destruct (ProviderData req) as [|c|[config|]|t] eqn:Hdata; simpl.
  - split; [by left | done].
  - split; [by left|]. intros _ _. by apply HasError_Append_error.
  - split; [|by intros Hno; destruct (Hno (Some config))].
    right. by exists config.
  - split; [by left|]. by intros Hno; destruct (Hno None).
  - split; [by left|]. intros _ _. by apply HasError_Append_error.
Qed.

Lemma Configure_takes_both_or_nothing_witness :
  diag.HasError
    (all_resource.Diagnostics
       (snd (fst (all_resource.Configure scenario.unconfigured
                    {| ProviderData := AnyOther "string" |}
                    {| all_resource.Diagnostics := [] |}))))
  = true.
Proof.
  apply (proj2 (Configure_takes_both_or_nothing scenario.unconfigured
                  {| ProviderData := AnyOther "string" |}
                  {| all_resource.Diagnostics := [] |})); done.
Defined.

(** ** Properties of Create, Read and Update *)

(** X15. Create, Read and Update are one operation: given the same decoded
    model and diagnostics (from the plan for Create and Update, from the
    state for Read), the same resource and the same response, the three end
    the same way, with the same response and the same calls. *)
Theorem Create_Read_Update_agree {StateT : Type}
    (StateSet : StateT -> lifecycle.allResourceModel -> StateT * diag.Diagnostics)
    fuel r preq rreq (resp : lifecycle.Response StateT) :
  lifecycle.StateGet rreq = lifecycle.PlanGet preq ->
  lifecycle.Create StateSet fuel r preq resp
  = lifecycle.Read StateSet fuel r rreq resp
  /\ lifecycle.Update StateSet fuel r preq resp
     = lifecycle.Read StateSet fuel r rreq resp.
Proof.
  intros Hget. unfold lifecycle.Create, lifecycle.Update, lifecycle.Read.
  by rewrite Hget.
Qed.

Lemma Create_Read_Update_agree_witness :
  let r := scenario.resourceOf "acme"
             (scenario.scripted
                [inl ([scenario.repo "alpha" 1], {| github.NextPage := 0 |})]) in
  let m := scenario.tracked ["alpha"; "beta"] in
  let preq := {| lifecycle.PlanGet := ({| lifecycle.Repos := m |}, []) |} in
  lifecycle.Create scenario.store 1 r preq (scenario.holding m)
  = lifecycle.Read scenario.store 1 r (scenario.stored m) (scenario.holding m)
  /\ lifecycle.Update scenario.store 1 r preq (scenario.holding m)
     = lifecycle.Read scenario.store 1 r (scenario.stored m) (scenario.holding m).
Proof.
  intros r m preq.
  apply (Create_Read_Update_agree scenario.store 1 r preq (scenario.stored m)
           (scenario.holding m)).
  reflexivity.
Defined.

(** X16. When a page fetch fails, Read leaves the state of the response
    untouched, whatever the framework's State.Set would do, and adds one
    error that carries the fetch error's message. *)
Theorem Read_fetch_error_keeps_state {StateT : Type}
    (StateSet : StateT -> lifecycle.allResourceModel -> StateT * diag.Diagnostics)
    fuel r c req (resp : lifecycle.Response StateT) n opt err :
  let prior := diag.Append (lifecycle.Diagnostics resp)
                 (snd (lifecycle.StateGet req)) in
  diag.HasError prior = false ->
  client r = Some c ->
  requestAt n c (owner r) initialOptions = Some opt ->
  github.ListByOrg c (owner r) opt = inr err ->
  (n < fuel)%nat ->
  exists evs,
    lifecycle.Read StateSet fuel r req resp
    = Some ({| lifecycle.State := lifecycle.State resp;
               lifecycle.Diagnostics :=
                 prior ++ [ {| diag.Severity_ := diag.SeverityError;
                               diag.Attribute := None;
                               diag.Summary := "Error Reading GitHub Repositories";
                               diag.Detail :=
                                 "Could not read GitHub repositories: " +:+ err |} ] |},
            Returned None, evs).
Proof.
  intros prior Hprior Hc Hat Herr Hfuel. subst prior.
  unfold lifecycle.Read. destruct (lifecycle.StateGet req) as [state diags].
  simpl in *. rewrite Hprior.
  unfold readRepositories. rewrite Hc.
  destruct (listAll_fails c (owner r) n fuel initialOptions [] opt err
              Hat Herr Hfuel) as [calls ->].
  unfold diag.AddError. rewrite Append_error by done. eauto.
Qed.

Lemma Read_fetch_error_keeps_state_witness :
  let r := scenario.resourceOf "acme"
             (scenario.scripted
                [inl ([scenario.repo "alpha" 1], {| github.NextPage := 2 |});
                 inr "502 Bad Gateway"]) in
  let m := scenario.tracked ["alpha"; "beta"] in
  exists evs,
    lifecycle.Read scenario.store 5 r (scenario.stored m) (scenario.holding m)
    = Some ({| lifecycle.State := Some {| lifecycle.Repos := m |};
               lifecycle.Diagnostics :=
                 [ {| diag.Severity_ := diag.SeverityError;
                      diag.Attribute := None;
                      diag.Summary := "Error Reading GitHub Repositories";
                      diag.Detail :=
                        "Could not read GitHub repositories: 502 Bad Gateway" |} ] |},
            Returned None, evs).
Proof.
  intros r m.
  eapply (Read_fetch_error_keeps_state scenario.store 5 r _ (scenario.stored m)
            (scenario.holding m) 1 (github.setPage initialOptions 2)
            "502 Bad Gateway");
    [reflexivity | reflexivity | reflexivity | reflexivity | lia].
Defined.

(** X17. On a listing fetched in full whose records the merge gets past,
    Read hands to State.Set a model with exactly the keys of the decoded
    state, each listed key holding the identifier of its last record and
    each other key its old entry; the response holds the state and the
    diagnostics State.Set gives. *)
Theorem Read_sets_refreshed_state {StateT : Type}
    (StateSet : StateT -> lifecycle.allResourceModel -> StateT * diag.Diagnostics)
    fuel r c req (resp : lifecycle.Response StateT) calls allRepos :
  let state := fst (lifecycle.StateGet req) in
  let prior := diag.Append (lifecycle.Diagnostics resp)
                 (snd (lifecycle.StateGet req)) in
  diag.HasError prior = false ->
  client r = Some c ->
  fullListing c (owner r) initialOptions calls allRepos ->
  Forall (mergeable (lifecycle.Repos state)) allRepos ->
  (length calls <= fuel)%nat ->
  exists repos evs,
    lifecycle.Read StateSet fuel r req resp
    = Some ({| lifecycle.State :=
                 fst (StateSet (lifecycle.State resp) {| lifecycle.Repos := repos |});
               lifecycle.Diagnostics :=
                 diag.Append prior
                   (snd (StateSet (lifecycle.State resp)
                           {| lifecycle.Repos := repos |})) |},
            Returned None, evs)
    /\ dom repos = dom (lifecycle.Repos state)
    /\ forall k,
         repos !! k =
           match lifecycle.Repos state !! k with
           | None => None
           | Some v =>
               match lastNamed k allRepos with
               | None => Some v
               | Some repo => known <$> github.ID repo
               end
           end.
Proof.
  intros state prior Hprior Hc Hfull Hmerge Hfuel. subst state prior.
  unfold lifecycle.Read. destruct (lifecycle.StateGet req) as [state diags].
  simpl in *. rewrite Hprior.
  destruct (readRepositories_on_listing fuel r c (lifecycle.Repos state)
              calls allRepos Hc Hfull Hfuel) as [evs Hrun].
  apply setRepos_ok_iff in Hmerge as [repos Hset].
  rewrite Hset in Hrun. rewrite Hrun.
  destruct (StateSet (lifecycle.State resp) {| lifecycle.Repos := repos |})
    as [st ds] eqn:Hstore.
  exists repos, (evs ++ [Debug "Finished reading GitHub repositories" []]).
  rewrite Hstore. simpl. split; [done|]. split.
  - by eapply setRepos_dom.
  - intros k. by apply setRepos_lookup.
Qed.

Lemma Read_sets_refreshed_state_witness :
  let page := [scenario.repo "alpha" 1; scenario.repo "gamma" 3] in
  let r := scenario.resourceOf "acme"
             (scenario.scripted [inl (page, {| github.NextPage := 0 |})]) in
  let m := scenario.tracked ["alpha"; "beta"] in
  exists repos evs,
    lifecycle.Read scenario.store 1 r (scenario.stored m) (scenario.holding m)
    = Some ({| lifecycle.State := Some {| lifecycle.Repos := repos |};
               lifecycle.Diagnostics := [] |},
            Returned None, evs)
    /\ dom repos = dom m
    /\ forall k,
         repos !! k =
           match m !! k with
           | None => None
           | Some v =>
               match lastNamed k page with
               | None => Some v
               | Some repo => known <$> github.ID repo
               end
           end.
Proof.
  intros page r m.
  apply (Read_sets_refreshed_state scenario.store 1 r
           (scenario.scripted [inl (page, {| github.NextPage := 0 |})])
           (scenario.stored m) (scenario.holding m)
           [ListByOrgCall "acme" initialOptions] page).
  - reflexivity.
  - reflexivity.
  - eapply fullListing_last; reflexivity.
  - repeat constructor; eexists; (split; [reflexivity|]); by eexists.
  - simpl. lia.
Defined.

(** X18. Read changes the state of the response only through State.Set
    after a readRepositories that returned without error, on the map that
    run left: in every other run (a decoding error, a fetch error, a panic)
    the state is the one the response came with. *)
Theorem Read_state_changes_only_after_success {StateT : Type}
    (StateSet : StateT -> lifecycle.allResourceModel -> StateT * diag.Diagnostics)
    fuel r req (resp resp' : lifecycle.Response StateT) out evs :
  lifecycle.Read StateSet fuel r req resp = Some (resp', out, evs) ->
  lifecycle.State resp' = lifecycle.State resp
  \/ (out = Returned None
      /\ exists repos,
           readRepositories fuel r (lifecycle.Repos (fst (lifecycle.StateGet req)))
           = Some (repos, Returned None, evs)
           /\ lifecycle.State resp'
              = fst (StateSet (lifecycle.State resp)
                       {| lifecycle.Repos := repos |})).
Proof.
  unfold lifecycle.Read. destruct (lifecycle.StateGet req) as [state diags].
  simpl. destruct (diag.HasError _).
  { intros [= <- <- <-]. by left. }
  destruct (readRepositories fuel r (lifecycle.Repos state))
    as [[[repos [[err|]|]] evs']|]; [| | |done].
  - intros [= <- <- <-]. by left.
  - destruct (StateSet _ _) as [st ds] eqn:Hstore.
    intros [= <- <- <-]. right. split; [done|]. exists repos.
    by rewrite Hstore.
  - intros [= <- <- <-]. by left.
Qed.

(** A resource that was never configured: the run panics, the state
    stays. *)
Lemma Read_state_changes_only_after_success_witness :
  let m := scenario.tracked ["alpha"] in
  lifecycle.State (scenario.holding m) = lifecycle.State (scenario.holding m)
  \/ (Panicked = Returned None
      /\ exists repos,
           readRepositories 1 scenario.unconfigured m
           = Some (repos, Returned None,
                   [Debug "Reading GitHub repositories" []])
           /\ lifecycle.State (scenario.holding m)
              = fst (scenario.store (lifecycle.State (scenario.holding m))
                       {| lifecycle.Repos := repos |})).
Proof.
  intros m.
  apply (Read_state_changes_only_after_success scenario.store 1
           scenario.unconfigured (scenario.stored m) (scenario.holding m)
           (scenario.holding m) Panicked
           [Debug "Reading GitHub repositories" []]).
  reflexivity.
Defined.

(** X19. When decoding the stored state gives an error, Read makes no
    remote call and writes no log entry, whether or not the resource has a
    client and whatever the fuel: it returns with the diagnostics and the
    state untouched. *)
Theorem Read_decode_error_makes_no_call {StateT : Type}
    (StateSet : StateT -> lifecycle.allResourceModel -> StateT * diag.Diagnostics)
    fuel r req (resp : lifecycle.Response StateT) :
  diag.HasError (snd (lifecycle.StateGet req)) = true ->
  exists ds,
    lifecycle.Read StateSet fuel r req resp
    = Some ({| lifecycle.State := lifecycle.State resp;
               lifecycle.Diagnostics := ds |}, Returned None, [])
    /\ diag.HasError ds = true.
Proof.
  intros Herr. unfold lifecycle.Read.
  destruct (lifecycle.StateGet req) as [state diags]. simpl in *.
  assert (diag.HasError (diag.Append (lifecycle.Diagnostics resp) diags) = true)
    as Hds.
  { clear -Herr. unfold diag.Append.
    revert Herr. generalize (lifecycle.Diagnostics resp).
    induction diags as [|d diags IH]; intros ds Herr; [done|]. simpl.
    unfold diag.HasError in Herr. simpl in Herr.
    destruct (diag.isError d) eqn:Hd.
    - apply (HasError_Append_keeps _ diags).
      unfold diag.Contains. case_bool_decide as Hin.
      + unfold diag.HasError. apply existsb_exists. exists d.
        split; [by apply list_elem_of_In | done].
      + unfold diag.HasError. rewrite existsb_app. simpl. rewrite Hd.
        by rewrite orb_true_r.
    - apply IH. exact Herr. }
  rewrite Hds. eauto.
Qed.

Lemma Read_decode_error_makes_no_call_witness :
  let broken := {| diag.Severity_ := diag.SeverityError;
                   diag.Attribute := Some "repos";
                   diag.Summary := "Value Conversion Error";
                   diag.Detail := "" |} in
  exists ds,
    lifecycle.Read scenario.store 0 scenario.unconfigured
      {| lifecycle.StateGet := ({| lifecycle.Repos := ∅ |}, [broken]) |}
      (scenario.holding ∅)
    = Some ({| lifecycle.State := Some {| lifecycle.Repos := ∅ |};
               lifecycle.Diagnostics := ds |}, Returned None, [])
    /\ diag.HasError ds = true.
Proof.
  intros broken.
  apply (Read_decode_error_makes_no_call scenario.store 0 scenario.unconfigured
           {| lifecycle.StateGet := ({| lifecycle.Repos := ∅ |}, [broken]) |}
           (scenario.holding ∅)).
  reflexivity.
Defined.

(** ** The descriptions of the schemas *)

(** X20. The table of descriptions has entries for token and owner only, so
    the provider's two attributes are described and everything in the
    resource's schema (the schema itself, repos and id) has the empty
    description. *)
Theorem descriptions_cover_provider_only :
  (forall key, key <> "token" -> key <> "owner" -> description key = "")
  /\ Forall (fun d => d = "") (schemaDescriptions allResourceSchema)
  /\ Forall (fun '(_, a) => Forall (fun d => d <> "") (attributeDescriptions a))
       (schema.Attributes providerSchema).
Proof.
  split; [|split].
  - intros key Ht Ho. unfold description, descriptions.
    by rewrite !lookup_insert_ne, lookup_empty by done.
  - assert (forall key, key <> "token" -> key <> "owner" -> description key = "")
      as Hnone.
    { intros key Ht Ho. unfold description, descriptions.
      by rewrite !lookup_insert_ne, lookup_empty by done. }
    unfold schemaDescriptions, allResourceSchema. simpl.
    repeat constructor; by apply Hnone.
  - unfold providerSchema, description, descriptions. simpl.
    repeat constructor.
    + by rewrite lookup_insert_eq.
    + rewrite lookup_insert_ne by done. by rewrite lookup_insert_eq.
Qed.

Lemma descriptions_cover_provider_only_witness :
  description "all_resource_schema" = "".
Proof.
  apply (proj1 descriptions_cover_provider_only "all_resource_schema"); done.
Defined.
